(** * medi-supply: the Dashboard's location pipeline and analysis runner

    A shallow embedding of the stateful logic of the [Dashboard] component
    (src/components/HospitalNetwork.tsx, second module of the file):
    [addLog], [getAddressFromCoords], [fetchLocalInsights], [fetchIpLocation],
    [locateUser], [runAnalysis] and [RiskBadge].

    The component is a single-threaded JavaScript program: every [await] and
    every callback is a point where the function is suspended and later
    resumed by the event loop.  The embedding keeps the React state of the
    component together with the table of suspended continuations and the
    timer queue in one record, [World], and resumes a continuation when the
    environment settles the operation it waits for. *)

From Stdlib Require Import Floats ZArith String List Bool Lia.
From Stdlib Require Import DecimalString Sorted.
Import ListNotations.

Set Warnings "-inexact-float,-register-all".
Local Open Scope string_scope.
Local Open Scope Z_scope.

(** ** JavaScript values

    The bodies returned by [res.json()] are arbitrary parsed JSON; the code
    reads them untyped ([any]), so validity is decided by JavaScript
    truthiness and not by a type. Numbers are IEEE binary64; an object is
    the list of its own properties, each key occurring once. *)

Inductive JsValue : Type :=
| JsUndefined
| JsNull
| JsBool (b : bool)
| JsNumber (x : float)
| JsString (s : string)
| JsArray (elems : list JsValue)
| JsObject (props : list (string * JsValue)).

(** Exceptions that the modelled code can see. The handlers of the source
    never inspect the exception, they only log it. *)
Inductive JsError : Type :=
| TypeError
| SyntaxError
| NetworkError
| Error (msg : string).

(** Result of evaluating a piece of code that may throw. *)
Inductive Completion (A : Type) : Type :=
| Return (a : A)
| Throw (e : JsError).
Arguments Return {A} a.
Arguments Throw {A} e.

Definition bind {A B : Type} (c : Completion A) (k : A -> Completion B) : Completion B :=
  match c with
  | Return a => k a
  | Throw e => Throw e
  end.

Notation "x <- c ;; k" := (bind c (fun x => k))
  (at level 61, c at next level, right associativity).

(** [try { body } catch (e) { handler }] for a body whose normal result and
    whose handler's result have the same type. *)
Definition try_catch {A : Type} (body : Completion A) (handler : JsError -> A) : A :=
  match body with
  | Return a => a
  | Throw e => handler e
  end.

(** ToBoolean: [undefined], [null], [false], [+0], [-0], [NaN] and the empty
    string are falsy, everything else (objects and arrays included) is truthy. *)
Definition ToBoolean (v : JsValue) : bool :=
  match v with
  | JsUndefined => false
  | JsNull => false
  | JsBool b => b
  | JsNumber x => negb (PrimFloat.is_zero x || PrimFloat.is_nan x)
  | JsString s => negb (String.eqb s "")
  | JsArray _ => true
  | JsObject _ => true
  end.

Fixpoint lookup_prop (k : string) (props : list (string * JsValue)) : JsValue :=
  match props with
  | [] => JsUndefined
  | (k', v) :: rest => if String.eqb k k' then v else lookup_prop k rest
  end.

(** Whether [k] is an own property of a parsed object. *)
Definition has_own (k : string) (props : list (string * JsValue)) : bool :=
  existsb (fun p => String.eqb k (fst p)) props.

(** [v.k] for the property names the source reads ([city], [locality],
    [principalSubdivision], [countryName], [latitude], [longitude]): a
    TypeError on [undefined] and [null], the own property of an object,
    [undefined] on primitives and arrays. *)
Definition Get (v : JsValue) (k : string) : Completion JsValue :=
  match v with
  | JsUndefined => Throw TypeError
  | JsNull => Throw TypeError
  | JsObject props => Return (lookup_prop k props)
  | _ => Return JsUndefined
  end.

(** [a || b]: [b] is evaluated only when [a] is falsy. *)
Definition or_else (a b : Completion JsValue) : Completion JsValue :=
  match a with
  | Throw e => Throw e
  | Return x => if ToBoolean x then Return x else b
  end.

Infix "|||" := or_else (at level 50, left associativity).

(** [v !== s] for a string literal [s]. *)
Definition strict_neq_string (v : JsValue) (s : string) : bool :=
  match v with
  | JsString t => negb (String.eqb t s)
  | _ => true
  end.

(** What the environment answers to [await fetch(url)] followed by
    [await res.json()]: the request is rejected, or a response arrives with
    its [ok] flag and a body that parses ([Some]) or does not ([None]).
    No state is written between the two awaits in any function of the
    component, so they are resumed together. *)
Inductive FetchOutcome : Type :=
| FetchRejected
| FetchResponse (ok : bool) (json : option JsValue).

Definition response_json (o : FetchOutcome) : Completion JsValue :=
  match o with
  | FetchRejected => Throw NetworkError
  | FetchResponse _ None => Throw SyntaxError
  | FetchResponse _ (Some data) => Return data
  end.

Definition response_ok (o : FetchOutcome) : Completion bool :=
  match o with
  | FetchRejected => Throw NetworkError
  | FetchResponse ok _ => Return ok
  end.

(** ** Types of ../types

    Modelled from the spec: the declarations [AIAnalysisResult],
    [RegionStats] and the risk level of ../types, which the Dashboard imports
    and which are not among the sources. Field names are those the component
    reads ([analysis.predictedDemand], [region.risk], ...). *)

Inductive RiskLevel : Type := LOW | MEDIUM | HIGH.

Record AIAnalysisResult : Type := mkAnalysis {
  predictedDemand : float;
  riskLevel : RiskLevel;
  recommendation : string;
  reasoning : string;
  affectedRegion : string;
  targetedMedicine : string
}.

Record RegionStats : Type := mkRegion {
  region_id : string;
  region_name : string;
  risk : RiskLevel;
  activeCases : Z
}.

(** [RiskBadge], for the levels of ../types: the class attribute of the
    [span] it renders and the text inside. *)
Definition RiskLevel_name (level : RiskLevel) : string :=
  match level with
  | LOW => "LOW"
  | MEDIUM => "MEDIUM"
  | HIGH => "HIGH"
  end.

Definition RiskBadge_colors (level : RiskLevel) : string :=
  match level with
  | LOW => "bg-green-100 text-green-800 border-green-200"
  | MEDIUM => "bg-yellow-100 text-yellow-800 border-yellow-200"
  | HIGH => "bg-red-100 text-red-800 border-red-200 animate-pulse"
  end.

Definition RiskBadge (level : RiskLevel) : string * string :=
  ("px-2.5 py-0.5 rounded-full text-xs font-bold border " ++ RiskBadge_colors level,
   RiskLevel_name level ++ " RISK").

(** The pair returned by [getAddressFromCoords]. *)
Record Address : Type := mkAddress {
  city : JsValue;
  state : JsValue
}.

(** [getAddressFromCoords], resumed with the outcome of its request:
<<
    try {
      const res = await fetch(...); const data = await res.json();
      const city = data.city || data.locality || data.principalSubdivision || "Unknown Location";
      const state = data.principalSubdivision || data.countryName || "";
      return { city, state };
    } catch (e) { return { city: "Unknown", state: "" }; }
>> *)
Definition getAddressFromCoords_resume (o : FetchOutcome) : Address :=
  try_catch
    (data <- response_json o ;;
     city <- Get data "city" ||| Get data "locality"
               ||| Get data "principalSubdivision" ||| Return (JsString "Unknown Location") ;;
     state <- Get data "principalSubdivision" ||| Get data "countryName"
               ||| Return (JsString "") ;;
     Return {| city := city; state := state |})
    (fun _ => {| city := JsString "Unknown"; state := JsString "" |}).

(** ** The component and its event loop *)

(** Error codes of GeolocationPositionError, passed to the error callback of
    [getCurrentPosition]; [TIMEOUT] is what the 5000 ms [timeout] option
    produces. *)
Inductive GeoError : Type :=
| PERMISSION_DENIED
| POSITION_UNAVAILABLE
| TIMEOUT.

(** A suspended continuation: the operation awaited together with the local
    variables the rest of the function still needs. *)
Inductive Pending : Type :=
| AwaitGeolocation
    (* locateUser: the two callbacks given to getCurrentPosition *)
| AwaitIpLocation
    (* fetchIpLocation at [await fetch('https://ipapi.co/json/')] *)
| AwaitReverseGeocode (lat lon : JsValue)
    (* fetchLocalInsights at [await getAddressFromCoords(lat, lon)] *)
| AwaitInsights (city : string)
    (* fetchLocalInsights at [await fetch(.../api/insights...)]; the local
       [city] is kept as the text its conversion gave in the request URL:
       the log line of the success branch converts the same value again *)
| AwaitRunAnalysis
    (* runAnalysis at [await AIService.runAnalysis()] *)
| AwaitRegionalRisk (result : AIAnalysisResult)
    (* runAnalysis at [await AIService.getRegionalRisk()] *).

(** How the environment settles an awaited operation. [AIService] lives in
    ../services/mockBackend, which is not among the sources: its two calls
    are answered by the environment like the network requests. *)
Inductive Settlement : Type :=
| GeoSuccess (latitude longitude : float)
| GeoFailure (err : GeoError)
| Fetched (o : FetchOutcome)
| AnalysisResolved (result : AIAnalysisResult)
| RegionsResolved (regionData : list RegionStats)
| ServiceRejected.

(** The seven [useState] cells of the component, then the runtime around
    them: the clock in milliseconds, the [setTimeout] queue (callbacks are
    all of the form [() => addLog(msg)], kept in firing order), the table of
    suspended continuations, the URLs passed to [fetch] so far (oldest
    first), and whether [navigator.geolocation] exists. *)
Record World : Type := mkWorld {
  analysis : option AIAnalysisResult;
  regions : list RegionStats;
  isAnalyzing : bool;
  logs : list string;
  localInsights : JsValue;
  locationStatus : string;
  locationError : option string;
  now : Z;
  timers : list (Z * string);
  next_id : nat;
  pending : list (nat * Pending);
  fetched : list string;
  geolocation : bool
}.

Definition setAnalysis (a : option AIAnalysisResult) (w : World) : World :=
  mkWorld a (regions w) (isAnalyzing w) (logs w) (localInsights w) (locationStatus w)
    (locationError w) (now w) (timers w) (next_id w) (pending w) (fetched w) (geolocation w).

Definition setRegions (r : list RegionStats) (w : World) : World :=
  mkWorld (analysis w) r (isAnalyzing w) (logs w) (localInsights w) (locationStatus w)
    (locationError w) (now w) (timers w) (next_id w) (pending w) (fetched w) (geolocation w).

Definition setIsAnalyzing (b : bool) (w : World) : World :=
  mkWorld (analysis w) (regions w) b (logs w) (localInsights w) (locationStatus w)
    (locationError w) (now w) (timers w) (next_id w) (pending w) (fetched w) (geolocation w).

(** [setLogs] with an updater function, as [addLog] uses it. *)
Definition setLogs (f : list string -> list string) (w : World) : World :=
  mkWorld (analysis w) (regions w) (isAnalyzing w) (f (logs w)) (localInsights w)
    (locationStatus w) (locationError w) (now w) (timers w) (next_id w) (pending w)
    (fetched w) (geolocation w).

Definition setLocalInsights (d : JsValue) (w : World) : World :=
  mkWorld (analysis w) (regions w) (isAnalyzing w) (logs w) d (locationStatus w)
    (locationError w) (now w) (timers w) (next_id w) (pending w) (fetched w) (geolocation w).

Definition setLocationStatus (s : string) (w : World) : World :=
  mkWorld (analysis w) (regions w) (isAnalyzing w) (logs w) (localInsights w) s
    (locationError w) (now w) (timers w) (next_id w) (pending w) (fetched w) (geolocation w).

Definition setLocationError (e : option string) (w : World) : World :=
  mkWorld (analysis w) (regions w) (isAnalyzing w) (logs w) (localInsights w)
    (locationStatus w) e (now w) (timers w) (next_id w) (pending w) (fetched w)
    (geolocation w).

Definition set_now (t : Z) (w : World) : World :=
  mkWorld (analysis w) (regions w) (isAnalyzing w) (logs w) (localInsights w)
    (locationStatus w) (locationError w) t (timers w) (next_id w) (pending w) (fetched w)
    (geolocation w).

Definition set_timers (q : list (Z * string)) (w : World) : World :=
  mkWorld (analysis w) (regions w) (isAnalyzing w) (logs w) (localInsights w)
    (locationStatus w) (locationError w) (now w) q (next_id w) (pending w) (fetched w)
    (geolocation w).

Definition set_pending (p : list (nat * Pending)) (w : World) : World :=
  mkWorld (analysis w) (regions w) (isAnalyzing w) (logs w) (localInsights w)
    (locationStatus w) (locationError w) (now w) (timers w) (next_id w) p (fetched w)
    (geolocation w).

(** Suspend on an operation: the continuation gets a fresh identifier. *)
Definition await (k : Pending) (w : World) : World :=
  mkWorld (analysis w) (regions w) (isAnalyzing w) (logs w) (localInsights w)
    (locationStatus w) (locationError w) (now w) (timers w) (S (next_id w))
    ((next_id w, k) :: pending w) (fetched w) (geolocation w).

(** [fetch(url)]: the request is issued, and recorded. *)
Definition fetch (url : string) (w : World) : World :=
  mkWorld (analysis w) (regions w) (isAnalyzing w) (logs w) (localInsights w)
    (locationStatus w) (locationError w) (now w) (timers w) (next_id w) (pending w)
    ((fetched w ++ [url])%list) (geolocation w).

(** The timer queue is kept sorted by due time; timers with the same due
    time fire in the order of their [setTimeout] calls. *)
Fixpoint enqueue (due : Z) (msg : string) (q : list (Z * string)) : list (Z * string) :=
  match q with
  | [] => [(due, msg)]
  | (d, m) :: rest =>
      if due <? d then (due, msg) :: q else (d, m) :: enqueue due msg rest
  end.

(** [setTimeout(() => addLog(msg), delay)] *)
Definition setTimeout (msg : string) (delay : Z) (w : World) : World :=
  set_timers (enqueue (now w + delay) msg (timers w)) w.

Fixpoint lookup_pending (id : nat) (p : list (nat * Pending)) : option Pending :=
  match p with
  | [] => None
  | (i, k) :: rest => if Nat.eqb i id then Some k else lookup_pending id rest
  end.

Fixpoint remove_pending (id : nat) (p : list (nat * Pending)) : list (nat * Pending) :=
  match p with
  | [] => []
  | (i, k) :: rest =>
      if Nat.eqb i id then remove_pending id rest else (i, k) :: remove_pending id rest
  end.

(** ** Host functions for the examples

    A clock that prints the milliseconds since the component was created, and
    a number printer that knows the coordinates used in the examples. *)
Definition sample_toLocaleTimeString (t : Z) : string :=
  NilZero.string_of_int (Z.to_int t).

Definition sample_Number_toString (x : float) : string :=
  if (x =? 12.9716)%float then "12.9716"
  else if (x =? 77.5946)%float then "77.5946"
  else "0".

Section Dashboard.

(** Host functions the component calls and whose result is a matter of the
    JavaScript engine and the locale: the string of a number inside a
    template literal, and [new Date().toLocaleTimeString()] as a function
    of the clock. *)
Variable Number_toString : float -> string.
Variable toLocaleTimeString : Z -> string.

(** String conversion inside a template literal (ToString, with
    ToPrimitive on objects). A parsed object prints as [[object Object]]
    through [Object.prototype.toString], unless it has an own property
    [toString]: a parsed value is never callable, [valueOf] then gives no
    primitive either, and the conversion throws a TypeError. An array is
    joined with commas, [undefined] and [null] elements giving the empty
    string and the other elements being converted in turn. *)
Fixpoint ToString (v : JsValue) : Completion string :=
  match v with
  | JsUndefined => Return "undefined"
  | JsNull => Return "null"
  | JsBool true => Return "true"
  | JsBool false => Return "false"
  | JsNumber x => Return (Number_toString x)
  | JsString s => Return s
  | JsArray elems =>
      (fix join (l : list JsValue) : Completion string :=
         match l with
         | [] => Return ""
         | x :: rest =>
             e <- match x with
                  | JsUndefined | JsNull => Return ""
                  | _ => ToString x
                  end ;;
             match rest with
             | [] => Return e
             | _ :: _ => r <- join rest ;; Return (e ++ "," ++ r)
             end
         end) elems
  | JsObject props =>
      if has_own "toString" props then Throw TypeError
      else Return "[object Object]"
  end.

(** The line [addLog] stores for [msg] when the clock shows [t]. *)
Definition log_line (t : Z) (msg : string) : string :=
  "> " ++ toLocaleTimeString t ++ " - " ++ msg.

(** [setLogs(prev => [...prev, `> ${new Date().toLocaleTimeString()} - ${msg}`])] *)
Definition addLog (msg : string) (w : World) : World :=
  setLogs (fun prev => (prev ++ [log_line (now w) msg])%list) w.

(** The two template literals that build a request URL; the substitutions
    are converted from left to right. *)
Definition reverse_geocode_url (lat lon : JsValue) : Completion string :=
  lat <- ToString lat ;;
  lon <- ToString lon ;;
  Return ("https://api.bigdatacloud.net/data/reverse-geocode-client?latitude=" ++ lat
            ++ "&longitude=" ++ lon ++ "&localityLanguage=en").

Definition insights_url (lat lon city state : JsValue) : Completion string :=
  lat <- ToString lat ;;
  lon <- ToString lon ;;
  city <- ToString city ;;
  state <- ToString state ;;
  Return ("http://localhost:8000/api/insights?lat=" ++ lat ++ "&lon=" ++ lon
            ++ "&city=" ++ city ++ "&state=" ++ state).

Definition ip_location_url : string := "https://ipapi.co/json/".

(** [fetchLocalInsights] from the point where [getAddressFromCoords] has
    returned the address [a]. When the URL of the insights request cannot be
    built, the throw is inside the [try] and the [catch] runs. *)
Definition fetchLocalInsights_continue (lat lon : JsValue) (a : Address) (w : World)
  : World :=
  if ToBoolean (city a) && strict_neq_string (city a) "Unknown" then
    match insights_url lat lon (city a) (state a), ToString (city a) with
    | Return url, Return city =>
        let w := fetch url w in
        await (AwaitInsights city) w
    | _, _ =>
        let w := setLocationStatus "Data Unavailable" w in
        setLocationError (Some "Failed to fetch local insights.") w
    end
  else
    setLocationStatus "Could not determine city name." w.

(** [fetchLocalInsights(lat, lon)] up to its first suspension, inside
    [getAddressFromCoords]. When the URL of the reverse-geocoding request
    cannot be built, the throw is inside the [try] of
    [getAddressFromCoords], whose [catch] returns
    [{city: "Unknown", state: ""}] without any request. *)
Definition fetchLocalInsights (lat lon : JsValue) (w : World) : World :=
  let w := setLocationStatus "Analyzing local environment..." w in
  match reverse_geocode_url lat lon with
  | Return url =>
      let w := fetch url w in
      await (AwaitReverseGeocode lat lon) w
  | Throw _ =>
      fetchLocalInsights_continue lat lon
        {| city := JsString "Unknown"; state := JsString "" |} w
  end.

(** [fetchLocalInsights] resumed when [getAddressFromCoords] returns. *)
Definition fetchLocalInsights_located (lat lon : JsValue) (o : FetchOutcome) (w : World)
  : World :=
  fetchLocalInsights_continue lat lon (getAddressFromCoords_resume o) w.

(** [fetchLocalInsights] resumed with the answer of the insights backend.
    Every statement of the [try] block that can throw comes before its
    first state update, so a thrown completion carries no state. *)
Definition fetchLocalInsights_resume (city : string) (o : FetchOutcome) (w : World)
  : World :=
  try_catch
    (ok <- response_ok o ;;
     if negb ok then Throw (Error "Backend API failed")
     else
       data <- response_json o ;;
       let w := setLocalInsights data w in
       let w := setLocationStatus "Live Data Active" w in
       Return (addLog ("Environment analysis for " ++ city ++ " complete.") w))
    (fun _ =>
       let w := setLocationStatus "Data Unavailable" w in
       setLocationError (Some "Failed to fetch local insights.") w).

(** [fetchIpLocation] up to its suspension. *)
Definition fetchIpLocation (w : World) : World :=
  let w := setLocationStatus "Estimating location via IP..." w in
  let w := fetch ip_location_url w in
  await AwaitIpLocation w.

(** [a && b]: [b] is evaluated only when [a] is truthy. *)
Definition and_then (a b : Completion JsValue) : Completion JsValue :=
  match a with
  | Throw e => Throw e
  | Return x => if ToBoolean x then b else Return x
  end.

(** [fetchIpLocation] resumed with the answer of the IP lookup. The call of
    [fetchLocalInsights] is not awaited; it runs up to its own first
    suspension and cannot throw before it. *)
Definition fetchIpLocation_resume (o : FetchOutcome) (w : World) : World :=
  try_catch
    (data <- response_json o ;;
     valid <- and_then (Get data "latitude") (Get data "longitude") ;;
     if ToBoolean valid then
       latitude <- Get data "latitude" ;;
       longitude <- Get data "longitude" ;;
       Return (fetchLocalInsights latitude longitude w)
     else Throw (Error "IP Geolocation return invalid data"))
    (fun _ =>
       let w := setLocationError
                  (Some "Automatic location failed. Please click 'Retry Location'.") w in
       setLocationStatus "Location Unknown" w).

(** [locateUser] up to the call of [getCurrentPosition]. *)
Definition locateUser (w : World) : World :=
  let w := setLocationError None w in
  let w := setLocationStatus "Detecting location..." w in
  if negb (geolocation w) then fetchIpLocation w
  else await AwaitGeolocation w.

(** [runAnalysis] up to [await AIService.runAnalysis()]. *)
Definition runAnalysis (w : World) : World :=
  let w := setIsAnalyzing true w in
  let w := setLogs (fun _ => []) w in
  let w := addLog "Initializing AI Agent..." w in
  let w := setTimeout "Fetching real-time inventory data..." 500 w in
  let w := setTimeout "Aggregating community symptom reports..." 900 w in
  let w := setTimeout "Running LLaMA-3 reasoning model..." 1300 w in
  await AwaitRunAnalysis w.

(** [runAnalysis] resumed with the forecast: the regional-risk call starts
    only now. *)
Definition runAnalysis_result (result : AIAnalysisResult) (w : World) : World :=
  await (AwaitRegionalRisk result) w.

(** [runAnalysis] resumed with the regional risk list. *)
Definition runAnalysis_regions (result : AIAnalysisResult) (regionData : list RegionStats)
    (w : World) : World :=
  let w := setAnalysis (Some result) w in
  let w := setRegions regionData w in
  let w := setIsAnalyzing false w in
  addLog "Analysis complete. Insights generated." w.

(** Resume the continuation [id] with a settlement. [None] when no such
    continuation is suspended or the settlement is not one its operation
    can produce. A rejected [AIService] call ends [runAnalysis] there: the
    function has no handler. *)
Definition settle (id : nat) (s : Settlement) (w : World) : option World :=
  match lookup_pending id (pending w) with
  | None => None
  | Some k =>
      let w := set_pending (remove_pending id (pending w)) w in
      match k, s with
      | AwaitGeolocation, GeoSuccess latitude longitude =>
          Some (fetchLocalInsights (JsNumber latitude) (JsNumber longitude) w)
      | AwaitGeolocation, GeoFailure _ => Some (fetchIpLocation w)
      | AwaitIpLocation, Fetched o => Some (fetchIpLocation_resume o w)
      | AwaitReverseGeocode lat lon, Fetched o => Some (fetchLocalInsights_located lat lon o w)
      | AwaitInsights city, Fetched o => Some (fetchLocalInsights_resume city o w)
      | AwaitRunAnalysis, AnalysisResolved result => Some (runAnalysis_result result w)
      | AwaitRunAnalysis, ServiceRejected => Some w
      | AwaitRegionalRisk result, RegionsResolved regionData =>
          Some (runAnalysis_regions result regionData w)
      | AwaitRegionalRisk _, ServiceRejected => Some w
      | _, _ => None
      end
  end.

(** Fire, in order, the timers of [q] that are due at [t] or before; each
    callback runs with the clock at its due time. *)
Fixpoint fire (t : Z) (q : list (Z * string)) (w : World) : World :=
  match q with
  | [] => w
  | (due, msg) :: rest =>
      if due <=? t then fire t rest (addLog msg (set_now due (set_timers rest w)))
      else w
  end.

(** Let the clock advance to [t]. *)
Definition elapse (t : Z) (w : World) : option World :=
  if t <? now w then None
  else Some (set_now t (fire t (timers w) w)).

(** The condition under which the [Retry Location] button is rendered:
    [(!localInsights || locationError)]. *)
Definition retry_visible (w : World) : bool :=
  negb (ToBoolean (localInsights w))
  || match locationError w with
     | Some e => negb (String.eqb e "")
     | None => false
     end.

(** What can happen to the mounted component: time passes, an awaited
    operation settles, one of the two entry points is invoked (the mount
    effect does so), or one of the two buttons is clicked. The
    [Run AI Agent] button is disabled while [isAnalyzing]. *)
Inductive Event : Type :=
| Elapse (t : Z)
| Settle (id : nat) (s : Settlement)
| Call_runAnalysis
| Call_locateUser
| Click_RunAgent
| Click_RetryLocation.

Definition step (w : World) (e : Event) : option World :=
  match e with
  | Elapse t => elapse t w
  | Settle id s => settle id s w
  | Call_runAnalysis => Some (runAnalysis w)
  | Call_locateUser => Some (locateUser w)
  | Click_RunAgent => if isAnalyzing w then Some w else Some (runAnalysis w)
  | Click_RetryLocation => if retry_visible w then Some (locateUser w) else Some w
  end.

Fixpoint run (w : World) (es : list Event) : option World :=
  match es with
  | [] => Some w
  | e :: rest =>
      match step w e with
      | Some w' => run w' rest
      | None => None
      end
  end.

(** The component before its mount effect has run. *)
Definition initial (geo : bool) : World :=
  {| analysis := None; regions := []; isAnalyzing := false; logs := [];
     localInsights := JsNull; locationStatus := "Waiting for location...";
     locationError := None; now := 0; timers := []; next_id := 0%nat; pending := [];
     fetched := []; geolocation := geo |}.

(** The mount effect: [runAnalysis(); locateUser();] *)
Definition mount (w : World) : World := locateUser (runAnalysis w).

(** ** Reading the component's outputs *)

(** The identifier of the continuation suspended last. *)
Definition newest (w : World) : nat := Nat.pred (next_id w).

(** Spec-side reading of the selection policy of [getAddressFromCoords]:
    the first non-empty candidate, in order, else the default. A candidate
    is empty when it is falsy, which for a field that is absent or a string
    means: absent, or the empty string. *)
Fixpoint first_non_empty (candidates : list JsValue) (default : JsValue) : JsValue :=
  match candidates with
  | [] => default
  | c :: rest => if ToBoolean c then c else first_non_empty rest default
  end.

(** The coordinates [fetchIpLocation] accepts, read off its test
    [data.latitude && data.longitude]: the answer is an object whose
    [latitude] and [longitude] are both truthy; the pair of them, or [None]
    when the function takes its failure path. *)
Definition network_position (o : FetchOutcome) : option (JsValue * JsValue) :=
  match o with
  | FetchResponse _ (Some (JsObject props)) =>
      let latitude := lookup_prop "latitude" props in
      let longitude := lookup_prop "longitude" props in
      if ToBoolean latitude && ToBoolean longitude then Some (latitude, longitude)
      else None
  | _ => None
  end.

(** The start of a resolution attempt in which device positioning fails:
    either [navigator.geolocation] is missing and [locateUser] turns to the
    IP lookup at once, or the error callback of [getCurrentPosition] is
    called with [e] and does. *)
Definition device_failure (w : World) (e : GeoError) : list Event :=
  if geolocation w then [Call_locateUser; Settle (next_id w) (GeoFailure e)]
  else [Call_locateUser].

(** Continuations of [runAnalysis], as opposed to those of the location
    pipeline. *)
Definition analysis_continuation (k : Pending) : bool :=
  match k with
  | AwaitRunAnalysis | AwaitRegionalRisk _ => true
  | _ => false
  end.

(** No resolution attempt is in flight. *)
Definition location_idle (w : World) : bool :=
  forallb (fun p => analysis_continuation (snd p)) (pending w).

(** Events that start a resolution attempt. *)
Definition starts_resolution (e : Event) : bool :=
  match e with
  | Call_locateUser | Click_RetryLocation => true
  | _ => false
  end.


(** Requests to the insights endpoint among those issued so far. *)
Definition is_insights_request (url : string) : bool :=
  String.prefix "http://localhost:8000/api/insights" url.

Definition insights_calls (w : World) : nat :=
  length (filter is_insights_request (fetched w)).

(** [reaches_address w w1 lat lon]: a resolution attempt started in [w] has
    obtained the position [(lat, lon)], from the device or, the device having
    failed, from the IP lookup, and in [w1] it waits for the address of that
    position. *)
Inductive reaches_address (w : World) : World -> JsValue -> JsValue -> Prop :=
| address_of_device_position (latitude longitude : float) (w1 : World) :
    geolocation w = true ->
    run w [Call_locateUser; Settle (next_id w) (GeoSuccess latitude longitude)] = Some w1 ->
    reaches_address w w1 (JsNumber latitude) (JsNumber longitude)
| address_of_network_position (e : GeoError) (o : FetchOutcome) (lat lon : JsValue)
      (url : string) (w0 w1 : World) :
    network_position o = Some (lat, lon) ->
    reverse_geocode_url lat lon = Return url ->
    run w (device_failure w e) = Some w0 ->
    settle (newest w0) (Fetched o) w0 = Some w1 ->
    reaches_address w w1 lat lon.

(** The three timers [runAnalysis] sets when called at time [s]. *)
Definition run_timers (s : Z) : list (Z * string) :=
  [(s + 500, "Fetching real-time inventory data...");
   (s + 900, "Aggregating community symptom reports...");
   (s + 1300, "Running LLaMA-3 reasoning model...")].

(** The timers of a queue that are due at [t] or before, and the others. *)
Definition due_by (t : Z) (q : list (Z * string)) : list (Z * string) :=
  filter (fun p => fst p <=? t) q.

Definition due_after (t : Z) (q : list (Z * string)) : list (Z * string) :=
  filter (fun p => negb (fst p <=? t)) q.

(** The log lines the timers of [q] write when they fire. *)
Definition lines (q : list (Z * string)) : list string :=
  map (fun p => log_line (fst p) (snd p)) q.

Definition by_due (a b : Z * string) : Prop := fst a <= fst b.

(** The text of the location indicator in the header:
<<
    locationError ? locationError
      : (localInsights ? `${localInsights.location.city}, ${localInsights.location.state}`
                       : locationStatus)
>>
    [location], [city] and [state] are read like the properties above: they
    are no properties of a primitive or of an array. *)
Definition location_indicator (w : World) : Completion string :=
  let otherwise :=
    if ToBoolean (localInsights w) then
      location <- Get (localInsights w) "location" ;;
      city <- Get location "city" ;;
      location <- Get (localInsights w) "location" ;;
      state <- Get location "state" ;;
      city <- ToString city ;;
      state <- ToString state ;;
      Return (city ++ ", " ++ state)
    else Return (locationStatus w) in
  match locationError w with
  | Some e => if negb (String.eqb e "") then Return e else otherwise
  | None => otherwise
  end.

(** Events of the analysis side of the component: time passing (the timers
    are those of [runAnalysis]), a call of [runAnalysis], and the settlement
    of one of its continuations. *)
Definition analysis_event (w : World) (ev : Event) : bool :=
  match ev with
  | Elapse _ | Call_runAnalysis | Click_RunAgent => true
  | Settle id _ =>
      match lookup_pending id (pending w) with
      | Some k => analysis_continuation k
      | None => false
      end
  | Call_locateUser | Click_RetryLocation => false
  end.

(** Events of the location pipeline. *)
Definition location_event (w : World) (ev : Event) : bool :=
  match ev with
  | Call_locateUser | Click_RetryLocation => true
  | Settle id _ =>
      match lookup_pending id (pending w) with
      | Some k => negb (analysis_continuation k)
      | None => false
      end
  | Elapse _ | Call_runAnalysis | Click_RunAgent => false
  end.

(** Events that start an analysis run whatever the state of the view. *)
Definition starts_run (ev : Event) : bool :=
  match ev with
  | Call_runAnalysis => true
  | _ => false
  end.

(** No continuation of [runAnalysis] is suspended. *)
Definition analysis_idle (w : World) : bool :=
  forallb (fun p => negb (analysis_continuation (snd p))) (pending w).

(** The values [setLocationStatus] and [setLocationError] are ever given,
    with the initial ones. *)
Definition location_statuses : list string :=
  ["Waiting for location..."; "Detecting location..."; "Analyzing local environment...";
   "Live Data Active"; "Could not determine city name."; "Data Unavailable";
   "Estimating location via IP..."; "Location Unknown"].

Definition location_errors : list (option string) :=
  [None; Some "Failed to fetch local insights.";
   Some "Automatic location failed. Please click 'Retry Location'."].

(** Requests to the IP lookup among those issued so far. *)
Definition ip_lookups (w : World) : list string :=
  filter (String.eqb ip_location_url) (fetched w).

(** [with_environment_lines l own]: the log [l] is the sequence [own], in
    order, with lines of the location pipeline ("Environment analysis for
    ... complete.") in between. *)
Inductive with_environment_lines : list string -> list string -> Prop :=
| wel_nil : with_environment_lines [] []
| wel_own (x : string) (l own : list string) :
    with_environment_lines l own -> with_environment_lines (x :: l) (x :: own)
| wel_environment (t : Z) (city : string) (l own : list string) :
    with_environment_lines l own ->
    with_environment_lines
      (log_line t ("Environment analysis for " ++ city ++ " complete.") :: l) own.

(** What may happen beside an analysis run without being part of it: time
    passes, and the location pipeline does its work. [run_beside] runs such
    events and refuses any other (a start of [runAnalysis], the settlement
    of a call of [AIService]). *)
Definition beside_run (w : World) (ev : Event) : bool :=
  match ev with
  | Elapse _ => true
  | _ => location_event w ev
  end.

Fixpoint run_beside (w : World) (es : list Event) : option World :=
  match es with
  | [] => Some w
  | ev :: rest =>
      if beside_run w ev then
        match step w ev with
        | Some w' => run_beside w' rest
        | None => None
        end
      else None
  end.

(** A run started at [s] is in flight, suspended in the continuation [id]:
    its timers that are not yet due are queued, and the lines it has written
    so far are the first line and those of the timers that were due. *)
Definition run_in_flight (s : Z) (id : nat) (k : Pending) (w : World) : Prop :=
  timers w = due_after (now w) (run_timers s)
  /\ s <= now w
  /\ with_environment_lines (logs w)
       (log_line s "Initializing AI Agent..." :: lines (due_by (now w) (run_timers s)))
  /\ lookup_pending id (pending w) = Some k
  /\ (id < next_id w)%nat.

(** The run started at [s] has completed at [t2]. *)
Definition run_completed (s t2 : Z) (w : World) : Prop :=
  timers w = due_after (now w) (run_timers s)
  /\ t2 <= now w
  /\ with_environment_lines (logs w)
       ((log_line s "Initializing AI Agent..." :: lines (due_by t2 (run_timers s)))
          ++ [log_line t2 "Analysis complete. Insights generated."]
          ++ lines (due_by (now w) (due_after t2 (run_timers s))))%list.

(** ** Locality resolution *)

Lemma ToBoolean_string (s : string) : ToBoolean (JsString s) = true <-> s <> "".
Proof.
  simpl. destruct (String.eqb_spec s ""); simpl; split; intro H; congruence.
Qed.

(** C2. For a reverse-geocoding response that is an object, the city is the
    first non-empty of its [city], [locality], [principalSubdivision], else
    the literal "Unknown Location"; the region is the first non-empty of
    [principalSubdivision], [countryName], else the empty string; for string
    fields non-empty means a string other than the empty one and an absent
    field is empty. A rejected request, an unparsable body and a body that
    is [null] give [{city: "Unknown", state: ""}]: the function always
    returns. *)
Theorem getAddressFromCoords_selection :
  (forall (ok : bool) (props : list (string * JsValue)),
      getAddressFromCoords_resume (FetchResponse ok (Some (JsObject props))) =
      {| city := first_non_empty
                   [lookup_prop "city" props; lookup_prop "locality" props;
                    lookup_prop "principalSubdivision" props]
                   (JsString "Unknown Location");
         state := first_non_empty
                    [lookup_prop "principalSubdivision" props;
                     lookup_prop "countryName" props]
                    (JsString "") |})
  /\ (forall s : string, ToBoolean (JsString s) = true <-> s <> "")
  /\ ToBoolean JsUndefined = false
  /\ getAddressFromCoords_resume FetchRejected
     = {| city := JsString "Unknown"; state := JsString "" |}
  /\ (forall ok : bool,
         getAddressFromCoords_resume (FetchResponse ok None)
         = {| city := JsString "Unknown"; state := JsString "" |})
  /\ (forall ok : bool,
         getAddressFromCoords_resume (FetchResponse ok (Some JsNull))
         = {| city := JsString "Unknown"; state := JsString "" |}).
Proof.
  split; [|split; [exact ToBoolean_string | repeat split]].
  intros ok props.
  unfold getAddressFromCoords_resume.
  cbv [response_json bind Get or_else try_catch first_non_empty].
  destruct (ToBoolean (lookup_prop "city" props)) eqn:Ec;
    destruct (ToBoolean (lookup_prop "locality" props)) eqn:El;
    destruct (ToBoolean (lookup_prop "principalSubdivision" props)) eqn:Ep;
    destruct (ToBoolean (lookup_prop "countryName" props)) eqn:En;
    rewrite ?Ec, ?El, ?Ep, ?En; try reflexivity;
    cbv iota; rewrite ?Ec, ?El, ?Ep, ?En; reflexivity.
Qed.

(** C4 (amended). When locality resolution throws (request rejected, body
    unparsable, or a body that is [null]) the city is "Unknown"; when the
    response is an object with no usable name the city is the literal
    "Unknown Location", a different value. *)
Theorem unresolved_locality_city :
  (forall (o : FetchOutcome) (e : JsError),
      (data <- response_json o ;; Get data "city") = Throw e ->
      city (getAddressFromCoords_resume o) = JsString "Unknown")
  /\ (forall (ok : bool) (props : list (string * JsValue)),
         ToBoolean (lookup_prop "city" props) = false ->
         ToBoolean (lookup_prop "locality" props) = false ->
         ToBoolean (lookup_prop "principalSubdivision" props) = false ->
         city (getAddressFromCoords_resume (FetchResponse ok (Some (JsObject props))))
         = JsString "Unknown Location").
Proof.
  split.
  - intros o e H.
    destruct o as [|ok [data|]]; try reflexivity.
    destruct data; simpl in H; try discriminate; reflexivity.
  - intros ok props Hc Hl Hp.
    unfold getAddressFromCoords_resume.
    cbv [response_json bind Get or_else try_catch].
    rewrite Hc, Hl, Hp.
    destruct (ToBoolean (lookup_prop "countryName" props)); reflexivity.
Qed.

(** ** The location pipeline *)

Lemma lookup_pending_head (id : nat) (k : Pending) (p : list (nat * Pending)) :
  lookup_pending id ((id, k) :: p) = Some k.
Proof. simpl. now rewrite Nat.eqb_refl. Qed.

Lemma remove_pending_head (id : nat) (k : Pending) (p : list (nat * Pending)) :
  remove_pending id ((id, k) :: p) = remove_pending id p.
Proof. simpl. now rewrite Nat.eqb_refl. Qed.

(** What the start of a fallback attempt leaves behind: the IP lookup is
    requested and awaited, and no error is shown. *)
Lemma device_failure_run (w : World) (e : GeoError) :
  exists w0, run w (device_failure w e) = Some w0
    /\ locationError w0 = None
    /\ locationStatus w0 = "Estimating location via IP..."
    /\ fetched w0 = (fetched w ++ [ip_location_url])%list
    /\ localInsights w0 = localInsights w
    /\ lookup_pending (newest w0) (pending w0) = Some AwaitIpLocation
    /\ pending w0
       = (newest w0, AwaitIpLocation)
           :: (if geolocation w then remove_pending (next_id w) (pending w) else pending w).
Proof.
  unfold device_failure, newest.
  destruct (geolocation w) eqn:Hgeo.
  - cbn [run step]. unfold locateUser. cbn [geolocation setLocationStatus setLocationError].
    rewrite Hgeo. cbn [negb].
    unfold settle. cbn [pending await]. rewrite lookup_pending_head, remove_pending_head.
    eexists; split; [reflexivity|].
    cbn. rewrite Nat.eqb_refl. repeat split; reflexivity.
  - cbn [run step]. unfold locateUser. cbn [geolocation setLocationStatus setLocationError].
    rewrite Hgeo. cbn [negb].
    eexists; split; [reflexivity|].
    cbn. rewrite Nat.eqb_refl. repeat split; reflexivity.
Qed.

(** The success branch of [fetchIpLocation]. *)
Lemma fetchIpLocation_resume_valid (o : FetchOutcome) (w : World) (lat lon : JsValue) :
  network_position o = Some (lat, lon) ->
  fetchIpLocation_resume o w = fetchLocalInsights lat lon w.
Proof.
  intros Hpos.
  destruct o as [|ok [data|]]; try discriminate.
  destruct data; try discriminate.
  cbn [network_position] in Hpos.
  destruct (ToBoolean (lookup_prop "latitude" props)) eqn:Hlat; try discriminate.
  destruct (ToBoolean (lookup_prop "longitude" props)) eqn:Hlon; try discriminate.
  cbn [andb] in Hpos. injection Hpos as <- <-.
  unfold fetchIpLocation_resume.
  cbv [response_json bind Get and_then try_catch]. rewrite Hlat, Hlon. reflexivity.
Qed.

(** [fetchLocalInsights] when the URL of its first request can be built. *)
Lemma fetchLocalInsights_requests (lat lon : JsValue) (url : string) (w : World) :
  reverse_geocode_url lat lon = Return url ->
  fetchLocalInsights lat lon w
  = await (AwaitReverseGeocode lat lon)
      (fetch url (setLocationStatus "Analyzing local environment..." w)).
Proof. intros Hurl. unfold fetchLocalInsights. now rewrite Hurl. Qed.

(** The fallback, from the failure of the device to the request for the
    address of the network position. *)
Lemma network_fallback_run
    (w : World) (e : GeoError) (o : FetchOutcome) (lat lon : JsValue) (url : string) :
  network_position o = Some (lat, lon) ->
  reverse_geocode_url lat lon = Return url ->
  exists w0 w1,
    run w (device_failure w e) = Some w0
    /\ locationError w0 = None
    /\ settle (newest w0) (Fetched o) w0 = Some w1
    /\ locationError w1 = None
    /\ locationStatus w1 = "Analyzing local environment..."
    /\ fetched w1 = (fetched w ++ [ip_location_url; url])%list
    /\ lookup_pending (newest w1) (pending w1) = Some (AwaitReverseGeocode lat lon).
Proof.
  intros Hpos Hurl.
  destruct (device_failure_run w e) as (w0 & Hrun & Herr & Hst & Hf & _ & Hk & _).
  exists w0. eexists. split; [exact Hrun|]. split; [exact Herr|].
  split.
  { unfold settle. rewrite Hk.
    rewrite (fetchIpLocation_resume_valid _ _ _ _ Hpos).
    rewrite (fetchLocalInsights_requests _ _ _ _ Hurl). reflexivity. }
  split; [exact Herr|]. split; [reflexivity|].
  split.
  { cbn. rewrite Hf, <- app_assoc. reflexivity. }
  unfold newest. cbn. now rewrite Nat.eqb_refl.
Qed.

(** The device gives a position: its address is requested. *)
Lemma device_position_run (w : World) (latitude longitude : float) :
  geolocation w = true ->
  exists w1 url,
    run w [Call_locateUser; Settle (next_id w) (GeoSuccess latitude longitude)] = Some w1
    /\ reverse_geocode_url (JsNumber latitude) (JsNumber longitude) = Return url
    /\ locationError w1 = None
    /\ locationStatus w1 = "Analyzing local environment..."
    /\ fetched w1 = (fetched w ++ [url])%list
    /\ lookup_pending (newest w1) (pending w1)
       = Some (AwaitReverseGeocode (JsNumber latitude) (JsNumber longitude)).
Proof.
  intros Hgeo.
  cbn [run step]. unfold locateUser. cbn [geolocation setLocationStatus setLocationError].
  rewrite Hgeo. cbn [negb].
  unfold settle. cbn [pending await]. rewrite lookup_pending_head.
  rewrite (fetchLocalInsights_requests (JsNumber latitude) (JsNumber longitude) _ _ eq_refl).
  eexists. eexists. split; [reflexivity|].
  split; [reflexivity|]. split; [reflexivity|]. split; [reflexivity|].
  split; [reflexivity|].
  unfold newest. cbn. now rewrite Nat.eqb_refl.
Qed.

(** A URL built for the reverse geocoder or for the IP lookup is no request
    to the insights endpoint; one built by [insights_url] is. *)
Lemma reverse_geocode_url_kind (lat lon : JsValue) (url : string) :
  reverse_geocode_url lat lon = Return url -> is_insights_request url = false.
Proof.
  unfold reverse_geocode_url. destruct (ToString lat); [|discriminate].
  destruct (ToString lon); [|discriminate]. cbn [bind]. intros [= <-]. reflexivity.
Qed.

Lemma insights_url_kind (lat lon city state : JsValue) (url : string) :
  insights_url lat lon city state = Return url -> is_insights_request url = true.
Proof.
  unfold insights_url. destruct (ToString lat); [|discriminate].
  destruct (ToString lon); [|discriminate]. destruct (ToString city); [|discriminate].
  destruct (ToString state); [|discriminate]. cbn [bind]. intros [= <-]. reflexivity.
Qed.

(** Up to the request for the address no error is shown and the insights
    endpoint has not been called. *)
Lemma reaches_address_spec (w w1 : World) (lat lon : JsValue) :
  reaches_address w w1 lat lon ->
  locationError w1 = None
  /\ lookup_pending (newest w1) (pending w1) = Some (AwaitReverseGeocode lat lon)
  /\ insights_calls w1 = insights_calls w
  /\ exists before url,
      reverse_geocode_url lat lon = Return url
      /\ fetched w1 = (before ++ [url])%list.
Proof.
  intros [latitude longitude w1' Hgeo Hrun | e o lat' lon' url w0 w1' Hpos Hurl Hrun Hset].
  - destruct (device_position_run w latitude longitude Hgeo)
      as (w1'' & url & Hrun' & Hurl & Herr & _ & Hf & Hk).
    rewrite Hrun in Hrun'. injection Hrun' as <-.
    split; [exact Herr|]. split; [exact Hk|]. split.
    + unfold insights_calls. rewrite Hf, filter_app, length_app. cbn [filter].
      rewrite (reverse_geocode_url_kind _ _ _ Hurl). cbn. lia.
    + exists (fetched w), url. split; [exact Hurl|exact Hf].
  - destruct (network_fallback_run w e o lat' lon' url Hpos Hurl)
      as (w0' & w1'' & Hrun' & _ & Hset' & Herr & _ & Hf & Hk).
    rewrite Hrun in Hrun'. injection Hrun' as <-.
    rewrite Hset in Hset'. injection Hset' as <-.
    split; [exact Herr|]. split; [exact Hk|]. split.
    + unfold insights_calls. rewrite Hf, filter_app, length_app. cbn [filter].
      rewrite (reverse_geocode_url_kind _ _ _ Hurl). cbn. lia.
    + exists (fetched w ++ [ip_location_url])%list, url.
      split; [exact Hurl|]. rewrite Hf, <- app_assoc. reflexivity.
Qed.

(** C3 (amended). In a resolution attempt that has obtained a position, from
    the device or from the network, when [getAddressFromCoords] yields the
    city "Unknown", [fetchLocalInsights] issues no request and suspends on
    nothing: over the whole attempt the insights endpoint has not been called.
    The attempt stops with the status "Could not determine city name." and
    no error. *)
Theorem unknown_city_skips_insights
    (w w1 : World) (lat lon : JsValue) (o : FetchOutcome) :
  reaches_address w w1 lat lon ->
  city (getAddressFromCoords_resume o) = JsString "Unknown" ->
  exists w2, settle (newest w1) (Fetched o) w1 = Some w2
    /\ fetched w2 = fetched w1
    /\ insights_calls w2 = insights_calls w
    /\ pending w2 = remove_pending (newest w1) (pending w1)
    /\ next_id w2 = next_id w1
    /\ locationStatus w2 = "Could not determine city name."
    /\ locationError w2 = None
    /\ localInsights w2 = localInsights w1.
Proof.
  intros Hreach Hcity.
  destruct (reaches_address_spec w w1 lat lon Hreach) as (Herr & Hk & Hcalls & _).
  unfold settle. rewrite Hk.
  unfold fetchLocalInsights_located, fetchLocalInsights_continue.
  rewrite Hcity. cbn [ToBoolean strict_neq_string].
  eexists; split; [reflexivity|].
  repeat split; try reflexivity; assumption.
Qed.

(** The same holds when the position cannot even be printed into the URL of
    the reverse geocoder: [getAddressFromCoords] catches the throw, no
    request is made, and [fetchLocalInsights] stops in the same status. *)
Lemma unprintable_position_skips_insights (lat lon : JsValue) (e : JsError) (w : World) :
  reverse_geocode_url lat lon = Throw e ->
  fetchLocalInsights lat lon w = setLocationStatus "Could not determine city name." w.
Proof.
  intros Hurl. unfold fetchLocalInsights, fetchLocalInsights_continue. rewrite Hurl.
  reflexivity.
Qed.



(** *** While no attempt is in flight, the location state does not move *)

Lemma fire_location (t : Z) (q : list (Z * string)) :
  forall w : World,
    pending (fire t q w) = pending w
    /\ locationError (fire t q w) = locationError w
    /\ locationStatus (fire t q w) = locationStatus w
    /\ localInsights (fire t q w) = localInsights w.
Proof.
  induction q as [|[due msg] rest IH]; intros w; cbn [fire].
  - repeat split.
  - destruct (due <=? t).
    + destruct (IH (addLog msg (set_now due (set_timers rest w)))) as (Hp & He & Hs & Hi).
      rewrite Hp, He, Hs, Hi. repeat split.
    + repeat split.
Qed.

Lemma lookup_pending_In (id : nat) (k : Pending) (p : list (nat * Pending)) :
  lookup_pending id p = Some k -> In (id, k) p.
Proof.
  induction p as [|[i k'] rest IH]; cbn [lookup_pending]; [discriminate|].
  destruct (Nat.eqb_spec i id) as [->|_].
  - intros [= ->]. now left.
  - intros H. right. now apply IH.
Qed.

Lemma remove_pending_forallb (f : nat * Pending -> bool) (id : nat)
    (p : list (nat * Pending)) :
  forallb f p = true -> forallb f (remove_pending id p) = true.
Proof.
  induction p as [|[i k] rest IH]; cbn [remove_pending forallb]; [trivial|].
  intros H. apply andb_true_iff in H as [Hk Hrest].
  destruct (Nat.eqb i id); cbn [forallb]; [auto|].
  rewrite Hk. auto.
Qed.

Lemma idle_step (w w' : World) (ev : Event) :
  location_idle w = true ->
  starts_resolution ev = false ->
  step w ev = Some w' ->
  location_idle w' = true
  /\ locationError w' = locationError w
  /\ locationStatus w' = locationStatus w
  /\ localInsights w' = localInsights w.
Proof.
  unfold location_idle. intros Hidle Hev Hstep.
  destruct ev as [t|id s| | | | ]; cbn [starts_resolution] in Hev; try discriminate;
    cbn [step] in Hstep.
  - unfold elapse in Hstep. destruct (t <? now w); [discriminate|].
    injection Hstep as <-.
    destruct (fire_location t (timers w) w) as (Hp & He & Hs & Hi).
    cbn [pending locationError locationStatus localInsights set_now].
    rewrite Hp, He, Hs, Hi. auto.
  - unfold settle in Hstep.
    destruct (lookup_pending id (pending w)) as [k|] eqn:Hk; [|discriminate].
    pose proof (remove_pending_forallb _ id _ Hidle) as Hrem.
    apply lookup_pending_In in Hk.
    rewrite forallb_forall in Hidle. specialize (Hidle _ Hk). cbn [snd] in Hidle.
    destruct k; cbn [analysis_continuation] in Hidle; try discriminate;
      destruct s; try discriminate; injection Hstep as <-; cbn; auto.
  - injection Hstep as <-. cbn. auto.
  - destruct (isAnalyzing w); injection Hstep as <-; cbn; auto.
Qed.

Lemma idle_run (es : list Event) :
  forall w w' : World,
    location_idle w = true ->
    forallb (fun ev => negb (starts_resolution ev)) es = true ->
    run w es = Some w' ->
    location_idle w' = true
    /\ locationError w' = locationError w
    /\ locationStatus w' = locationStatus w
    /\ localInsights w' = localInsights w.
Proof.
  induction es as [|ev rest IH]; intros w w' Hidle Hes Hrun; cbn [run] in Hrun.
  - injection Hrun as <-. auto.
  - cbn [forallb] in Hes. apply andb_true_iff in Hes as [Hev Hrest].
    apply negb_true_iff in Hev.
    destruct (step w ev) as [w1|] eqn:Hstep; [|discriminate].
    destruct (idle_step w w1 ev Hidle Hev Hstep) as (H1 & He & Hs & Hi).
    destruct (IH w1 w' H1 Hrest Hrun) as (H2 & He' & Hs' & Hi').
    rewrite He', Hs', Hi'. auto.
Qed.

(** The failure branch of [fetchIpLocation]. *)
Lemma fetchIpLocation_resume_invalid (o : FetchOutcome) (w : World) :
  network_position o = None ->
  fetchIpLocation_resume o w
  = setLocationStatus "Location Unknown"
      (setLocationError
         (Some "Automatic location failed. Please click 'Retry Location'.") w).
Proof.
  intros Hpos. unfold fetchIpLocation_resume.
  destruct o as [|ok [data|]]; try reflexivity.
  destruct data; try reflexivity.
  cbn [network_position] in Hpos.
  cbv [response_json bind Get and_then try_catch].
  destruct (ToBoolean (lookup_prop "latitude" props)) eqn:Hlat.
  - destruct (ToBoolean (lookup_prop "longitude" props)) eqn:Hlon; [discriminate|].
    reflexivity.
  - rewrite Hlat. reflexivity.
Qed.

(** C6 (amended). When device positioning fails and the IP lookup gives no
    usable coordinates either, the attempt ends with [locationError] equal
    to "Automatic location failed. Please click 'Retry Location'." and the
    status "Location Unknown". With no other attempt in flight, nothing but
    a new call of [locateUser] changes either of them: the [Retry Location]
    button is shown, and [locateUser] clears the error. *)
Theorem network_failure_is_terminal
    (w : World) (e : GeoError) (o : FetchOutcome) (es : list Event) :
  location_idle w = true ->
  network_position o = None ->
  forallb (fun ev => negb (starts_resolution ev)) es = true ->
  exists w0 w1,
    run w (device_failure w e) = Some w0
    /\ settle (newest w0) (Fetched o) w0 = Some w1
    /\ locationError w1
       = Some "Automatic location failed. Please click 'Retry Location'."
    /\ locationStatus w1 = "Location Unknown"
    /\ fetched w1 = (fetched w ++ [ip_location_url])%list
    /\ (forall w2 : World,
           run w1 es = Some w2 ->
           locationError w2 = locationError w1 /\ locationStatus w2 = locationStatus w1)
    /\ step w1 Click_RetryLocation = Some (locateUser w1)
    /\ locationError (locateUser w1) = None.
Proof.
  intros Hidle Hpos Hes.
  destruct (device_failure_run w e) as (w0 & Hrun & Herr & Hst & Hf & _ & Hk & Hp).
  exists w0. eexists. split; [exact Hrun|].
  split.
  { unfold settle. rewrite Hk. rewrite (fetchIpLocation_resume_invalid _ _ Hpos).
    reflexivity. }
  split; [reflexivity|]. split; [reflexivity|]. split; [exact Hf|].
  split.
  { intros w2 Hrun2.
    eapply idle_run in Hrun2; [|clear Hrun2|exact Hes].
    - tauto.
    - unfold location_idle. cbn [pending setLocationStatus setLocationError set_pending].
      rewrite Hp, remove_pending_head.
      apply remove_pending_forallb.
      destruct (geolocation w); [apply remove_pending_forallb|]; exact Hidle. }
  split.
  { cbn [step]. unfold retry_visible. cbn. rewrite orb_true_r. reflexivity. }
  unfold locateUser. cbn [geolocation setLocationStatus setLocationError set_pending].
  destruct (negb (geolocation w0)); reflexivity.
Qed.

(** C7. When the insights request is rejected, answered with a non-success
    status, or answered with a body that does not parse, [locationError]
    becomes "Failed to fetch local insights." and [localInsights] keeps the
    value it had. *)
Theorem insights_failure_keeps_previous
    (w : World) (id : nat) (city : string) (o : FetchOutcome) :
  lookup_pending id (pending w) = Some (AwaitInsights city) ->
  o = FetchRejected \/ (exists body, o = FetchResponse false body)
    \/ (exists ok, o = FetchResponse ok None) ->
  exists w', settle id (Fetched o) w = Some w'
    /\ locationError w' = Some "Failed to fetch local insights."
    /\ locationStatus w' = "Data Unavailable"
    /\ localInsights w' = localInsights w
    /\ fetched w' = fetched w.
Proof.
  intros Hk Hfail.
  unfold settle. rewrite Hk.
  eexists; split; [reflexivity|].
  destruct Hfail as [-> | [[body ->] | [ok ->]]]; [| |destruct ok];
    repeat split; reflexivity.
Qed.

(** C10. An IP-geolocation answer whose [latitude] or [longitude] is falsy,
    the number 0 included, takes the failure path of [fetchIpLocation]: the
    error is set, and no reverse-geocoding or insights request is made.
    Zero, of either sign, is falsy. *)
Theorem falsy_coordinate_is_rejected :
  ToBoolean (JsNumber 0) = false
  /\ ToBoolean (JsNumber (-0)) = false
  /\ forall (w : World) (id : nat) (ok : bool) (props : list (string * JsValue)),
      lookup_pending id (pending w) = Some AwaitIpLocation ->
      ToBoolean (lookup_prop "latitude" props) = false
      \/ ToBoolean (lookup_prop "longitude" props) = false ->
      exists w',
        settle id (Fetched (FetchResponse ok (Some (JsObject props)))) w = Some w'
        /\ locationError w'
           = Some "Automatic location failed. Please click 'Retry Location'."
        /\ locationStatus w' = "Location Unknown"
        /\ fetched w' = fetched w
        /\ pending w' = remove_pending id (pending w).
Proof.
  split; [reflexivity|]. split; [reflexivity|].
  intros w id ok props Hk Hfalsy.
  unfold settle. rewrite Hk.
  rewrite fetchIpLocation_resume_invalid.
  - eexists; split; [reflexivity|]. repeat split; reflexivity.
  - cbn [network_position].
    destruct Hfalsy as [-> | ->]; [reflexivity|].
    now rewrite andb_false_r.
Qed.

(** ** The analysis run *)

Lemma later_timers_not_due (t d : Z) (q : list (Z * string)) :
  Forall (fun b => d <= fst b) q -> t < d ->
  due_by t q = [] /\ due_after t q = q.
Proof.
  induction 1 as [|[d' m] rest Hd _ IH]; intros Ht; cbn [due_by due_after filter fst].
  - split; reflexivity.
  - cbn [fst] in Hd. destruct (Z.leb_spec d' t); [lia|]. cbn [negb].
    destruct (IH Ht) as [Hby Hafter]. unfold due_by, due_after in Hby, Hafter.
    rewrite Hby, Hafter. split; reflexivity.
Qed.

Lemma due_after_sorted (t : Z) (q : list (Z * string)) :
  StronglySorted by_due q -> StronglySorted by_due (due_after t q).
Proof.
  induction 1 as [|a rest Hs IH Ha]; cbn [due_after filter]; [constructor|].
  destruct (negb (fst a <=? t)); [|exact IH].
  constructor; [exact IH|].
  rewrite Forall_forall in *. intros b Hb. apply filter_In in Hb as [Hb _]. auto.
Qed.

Lemma due_by_split (t1 t2 : Z) (q : list (Z * string)) :
  StronglySorted by_due q -> t1 <= t2 ->
  (due_by t1 q ++ due_by t2 (due_after t1 q))%list = due_by t2 q.
Proof.
  induction 1 as [|[d m] rest Hs IH Ha]; intros Ht; [reflexivity|].
  cbn [due_by due_after filter fst].
  destruct (Z.leb_spec d t1) as [Hd|Hd]; cbn [negb].
  - destruct (Z.leb_spec d t2); [|lia].
    cbn [app]. f_equal. apply IH; exact Ht.
  - assert (Hrest : Forall (fun b => d <= fst b) rest).
    { rewrite Forall_forall in *. intros b Hb. apply (Ha b Hb). }
    destruct (later_timers_not_due t1 d rest Hrest Hd) as [Hby Hafter].
    unfold due_by, due_after in Hby, Hafter. rewrite Hby, Hafter.
    cbn [app filter fst]. reflexivity.
Qed.

(** Firing a sorted queue: exactly the due timers write their lines, in
    order, and nothing else of the component changes. *)
Lemma fire_spec (t : Z) (q : list (Z * string)) :
  StronglySorted by_due q ->
  forall w : World,
    timers w = q ->
    logs (fire t q w) = (logs w ++ lines (due_by t q))%list
    /\ timers (fire t q w) = due_after t q
    /\ pending (fire t q w) = pending w
    /\ next_id (fire t q w) = next_id w
    /\ analysis (fire t q w) = analysis w
    /\ regions (fire t q w) = regions w
    /\ isAnalyzing (fire t q w) = isAnalyzing w.
Proof.
  induction 1 as [|[d m] rest Hs IH Ha]; intros w Hq.
  - cbn. rewrite app_nil_r. repeat split; assumption.
  - cbn [fire due_by due_after filter fst].
    destruct (Z.leb_spec d t) as [Hd|Hd]; cbn [negb].
    + destruct (IH (addLog m (set_now d (set_timers rest w))) eq_refl)
        as (Hl & Ht & Hp & Hn & Ha' & Hr & Hi).
      rewrite Hl, Ht, Hp, Hn, Ha', Hr, Hi. cbn.
      rewrite <- app_assoc. repeat split; reflexivity.
    + assert (Hrest : Forall (fun b => d <= fst b) rest).
      { rewrite Forall_forall in *. intros b Hb. apply (Ha b Hb). }
      destruct (later_timers_not_due t d rest Hrest Hd) as [Hby Hafter].
      unfold due_by, due_after in Hby, Hafter. rewrite Hby, Hafter.
      cbn. rewrite app_nil_r. repeat split; assumption.
Qed.

Lemma elapse_spec (t : Z) (w : World) :
  StronglySorted by_due (timers w) -> now w <= t ->
  exists w', elapse t w = Some w'
    /\ now w' = t
    /\ logs w' = (logs w ++ lines (due_by t (timers w)))%list
    /\ timers w' = due_after t (timers w)
    /\ pending w' = pending w
    /\ next_id w' = next_id w
    /\ analysis w' = analysis w
    /\ regions w' = regions w
    /\ isAnalyzing w' = isAnalyzing w.
Proof.
  intros Hs Ht. unfold elapse.
  destruct (Z.ltb_spec t (now w)); [lia|].
  eexists; split; [reflexivity|].
  destruct (fire_spec t (timers w) Hs w eq_refl) as (Hl & Hq & Hp & Hn & Ha & Hr & Hi).
  cbn. repeat split; assumption.
Qed.

Lemma run_timers_sorted (s : Z) : StronglySorted by_due (run_timers s).
Proof.
  unfold run_timers, by_due.
  repeat (constructor; [|repeat (constructor; cbn [fst]; try lia)]).
  constructor.
Qed.

(** [runAnalysis] on a component with no timer pending. *)
Lemma runAnalysis_spec (w : World) :
  timers w = [] ->
  timers (runAnalysis w) = run_timers (now w)
  /\ logs (runAnalysis w) = [log_line (now w) "Initializing AI Agent..."]
  /\ pending (runAnalysis w) = (next_id w, AwaitRunAnalysis) :: pending w
  /\ next_id (runAnalysis w) = S (next_id w)
  /\ now (runAnalysis w) = now w
  /\ isAnalyzing (runAnalysis w) = true.
Proof.
  intros Hq. unfold runAnalysis, setTimeout. cbn. rewrite Hq. cbn [enqueue].
  destruct (Z.ltb_spec (now w + 900) (now w + 500)); [lia|].
  cbn [enqueue].
  destruct (Z.ltb_spec (now w + 1300) (now w + 500)); [lia|].
  destruct (Z.ltb_spec (now w + 1300) (now w + 900)); [lia|].
  repeat split; reflexivity.
Qed.

Lemma due_after_twice (t1 t2 : Z) (q : list (Z * string)) :
  t1 <= t2 -> due_after t2 (due_after t1 q) = due_after t2 q.
Proof.
  intros Ht. unfold due_after.
  induction q as [|[d m] rest IH]; [reflexivity|].
  cbn [filter fst].
  destruct (Z.leb_spec d t1); cbn [negb filter fst].
  - destruct (Z.leb_spec d t2); [|lia]. cbn [negb]. exact IH.
  - destruct (Z.leb_spec d t2); cbn [negb]; [exact IH | now rewrite IH].
Qed.

Lemma run_timers_all_due (s t : Z) :
  s + 1300 <= t -> due_by t (run_timers s) = run_timers s /\ due_after t (run_timers s) = [].
Proof.
  intros Ht. unfold due_by, due_after, run_timers. cbn [filter fst].
  destruct (Z.leb_spec (s + 500) t); [|lia].
  destruct (Z.leb_spec (s + 900) t); [|lia].
  destruct (Z.leb_spec (s + 1300) t); [|lia].
  split; reflexivity.
Qed.

(** The run alone: started at time [s] with no timer pending, nothing else
    happening, its forecast call resolving at [t1] and its regional-risk
    call at [t2]. The log is given exactly. *)
Lemma analysis_run_log_alone
    (w : World) (result : AIAnalysisResult) (regionData : list RegionStats)
    (t1 t2 t3 : Z) :
  timers w = [] ->
  now w <= t1 -> t1 <= t2 -> t2 <= t3 ->
  exists w1 w2 w3,
    logs (runAnalysis w) = [log_line (now w) "Initializing AI Agent..."]
    /\ run w [Call_runAnalysis; Elapse t1;
              Settle (next_id w) (AnalysisResolved result); Elapse t2] = Some w1
    /\ logs w1 = log_line (now w) "Initializing AI Agent..."
                   :: lines (due_by t2 (run_timers (now w)))
    /\ step w1 (Settle (S (next_id w)) (RegionsResolved regionData)) = Some w2
    /\ logs w2 = (logs w1 ++ [log_line t2 "Analysis complete. Insights generated."])%list
    /\ analysis w2 = Some result
    /\ regions w2 = regionData
    /\ isAnalyzing w2 = false
    /\ step w2 (Elapse t3) = Some w3
    /\ logs w3 = (logs w2 ++ lines (due_by t3 (due_after t2 (run_timers (now w)))))%list
    /\ (now w + 1300 <= t2 ->
        logs w2 = [log_line (now w) "Initializing AI Agent...";
                   log_line (now w + 500) "Fetching real-time inventory data...";
                   log_line (now w + 900) "Aggregating community symptom reports...";
                   log_line (now w + 1300) "Running LLaMA-3 reasoning model...";
                   log_line t2 "Analysis complete. Insights generated."]
        /\ logs w3 = logs w2).
Proof.
  intros Hq H1 H12 H23.
  destruct (runAnalysis_spec w Hq) as (Ha_q & Ha_l & Ha_p & Ha_n & Ha_now & _).
  pose proof (run_timers_sorted (now w)) as Hsorted.
  (* the clock reaches t1 *)
  destruct (elapse_spec t1 (runAnalysis w)) as (wb & Hb & Hb_now & Hb_l & Hb_q & Hb_p & Hb_n & _).
  { rewrite Ha_q. exact Hsorted. }
  { rewrite Ha_now. exact H1. }
  rewrite Ha_q, Ha_l in Hb_l. rewrite Ha_q in Hb_q. rewrite Ha_p in Hb_p.
  (* the forecast resolves *)
  set (wc := runAnalysis_result result
               (set_pending (remove_pending (next_id w) (pending wb)) wb)).
  assert (Hc : settle (next_id w) (AnalysisResolved result) wb = Some wc).
  { assert (Hk : lookup_pending (next_id w) (pending wb) = Some AwaitRunAnalysis)
      by (rewrite Hb_p; apply lookup_pending_head).
    unfold settle. rewrite Hk. reflexivity. }
  (* the clock reaches t2 *)
  destruct (elapse_spec t2 wc) as (w1 & Hd & Hd_now & Hd_l & Hd_q & Hd_p & Hd_n & _).
  { cbn. rewrite Hb_q. apply due_after_sorted, Hsorted. }
  { cbn. lia. }
  cbn [wc logs timers pending next_id runAnalysis_result await set_pending] in Hd_l, Hd_q, Hd_p, Hd_n.
  rewrite Hb_l, Hb_q in Hd_l. rewrite Hb_q in Hd_q. rewrite Hb_n, Ha_n in Hd_p.
  assert (Hlog1 : logs w1 = log_line (now w) "Initializing AI Agent..."
                            :: lines (due_by t2 (run_timers (now w)))).
  { rewrite Hd_l. unfold lines. rewrite <- app_assoc, <- map_app.
    rewrite (due_by_split t1 t2 _ Hsorted H12). reflexivity. }
  (* the regional-risk call resolves *)
  set (w2 := runAnalysis_regions result regionData
               (set_pending (remove_pending (S (next_id w)) (pending w1)) w1)).
  assert (He : settle (S (next_id w)) (RegionsResolved regionData) w1 = Some w2).
  { assert (Hk : lookup_pending (S (next_id w)) (pending w1)
                 = Some (AwaitRegionalRisk result))
      by (rewrite Hd_p; apply lookup_pending_head).
    unfold settle. rewrite Hk. reflexivity. }
  assert (Hlog2 : logs w2
                  = (logs w1 ++ [log_line t2 "Analysis complete. Insights generated."])%list).
  { cbn. rewrite Hd_now. reflexivity. }
  (* the clock reaches t3 *)
  destruct (elapse_spec t3 w2) as (w3 & Hf & _ & Hf_l & _).
  { cbn. rewrite Hd_q. apply due_after_sorted, due_after_sorted, Hsorted. }
  { cbn. lia. }
  assert (Hlog3 : logs w3
                  = (logs w2 ++ lines (due_by t3 (due_after t2 (run_timers (now w)))))%list).
  { rewrite Hf_l. cbn [w2 timers runAnalysis_regions addLog setLogs setIsAnalyzing
                        setRegions setAnalysis set_pending].
    rewrite Hd_q, (due_after_twice t1 t2 _ H12). reflexivity. }
  exists w1, w2, w3.
  split; [exact Ha_l|].
  split. { cbn [run step]. rewrite Hb, Hc, Hd. reflexivity. }
  split; [exact Hlog1|].
  split; [exact He|].
  split; [exact Hlog2|].
  split; [reflexivity|]. split; [reflexivity|]. split; [reflexivity|].
  split; [exact Hf|].
  split; [exact Hlog3|].
  intros Hlate.
  destruct (run_timers_all_due (now w) t2 Hlate) as [Hby Hafter].
  rewrite Hlog3, Hlog2, Hlog1, Hby, Hafter.
  cbn [due_by filter lines map]. rewrite app_nil_r. split; reflexivity.
Qed.

Lemma enqueue_In (p : Z * string) (due : Z) (msg : string) (q : list (Z * string)) :
  In p q -> In p (enqueue due msg q).
Proof.
  induction q as [|[d m] rest IH]; cbn [enqueue]; [intros []|].
  destruct (due <? d); intros Hp.
  - now right.
  - destruct Hp as [<-|Hp]; [now left | right; now apply IH].
Qed.


(** ** Properties of the component as a whole *)

Lemma fire_keeps (t : Z) (q : list (Z * string)) :
  forall w : World,
    fetched (fire t q w) = fetched w
    /\ geolocation (fire t q w) = geolocation w
    /\ next_id (fire t q w) = next_id w
    /\ analysis (fire t q w) = analysis w
    /\ regions (fire t q w) = regions w
    /\ isAnalyzing (fire t q w) = isAnalyzing w.
Proof.
  induction q as [|[due msg] rest IH]; intros w; cbn [fire].
  - repeat split.
  - destruct (due <=? t); [|repeat split].
    destruct (IH (addLog msg (set_now due (set_timers rest w)))) as (H1 & H2 & H3 & H4 & H5 & H6).
    rewrite H1, H2, H3, H4, H5, H6. repeat split.
Qed.

Ltac split_settle H :=
  unfold settle in H;
  match type of H with
  | match lookup_pending ?id ?p with _ => _ end = _ =>
      let k := fresh "k" in
      let Hk := fresh "Hk" in
      destruct (lookup_pending id p) as [k|] eqn:Hk; [|discriminate H];
      destruct k;
      match type of H with
      | context [match ?s with _ => _ end] => destruct s
      end;
      try discriminate H; injection H as <-
  end.

Ltac split_outcome :=
  repeat match goal with
  | |- context [fetchIpLocation_resume ?o ?w] =>
      let Hpos := fresh "Hpos" in
      destruct (network_position o) as [[? ?]|] eqn:Hpos;
      [rewrite (fetchIpLocation_resume_valid o w _ _ Hpos)
      |rewrite (fetchIpLocation_resume_invalid o w Hpos)]
  | |- context [fetchLocalInsights ?lat ?lon ?w] =>
      let Hurl := fresh "Hurl" in
      destruct (reverse_geocode_url lat lon) as [?|?] eqn:Hurl;
      [rewrite (fetchLocalInsights_requests lat lon _ w Hurl)
      |rewrite (unprintable_position_skips_insights lat lon _ w Hurl)]
  | |- context [fetchLocalInsights_located ?lat ?lon ?o ?w] =>
      let Hguard := fresh "Hguard" in
      let Hinsights := fresh "Hinsights" in
      let Hcity := fresh "Hcity" in
      unfold fetchLocalInsights_located, fetchLocalInsights_continue;
      destruct (ToBoolean (city (getAddressFromCoords_resume o))
                && strict_neq_string (city (getAddressFromCoords_resume o)) "Unknown")
        eqn:Hguard;
      [destruct (insights_url lat lon (city (getAddressFromCoords_resume o))
                   (state (getAddressFromCoords_resume o))) as [?|?] eqn:Hinsights;
       [destruct (ToString (city (getAddressFromCoords_resume o))) as [?|?] eqn:Hcity|]
      |]
  | |- context [fetchLocalInsights_resume ?c ?o ?w] =>
      is_var o; destruct o as [|[|] [?|]]
  end.

(** The insights request of [fetchLocalInsights], when the address passes
    the guard and the URL can be built. *)
Lemma fetchLocalInsights_located_requests
    (lat lon : JsValue) (o : FetchOutcome) (url : string) (w : World) :
  ToBoolean (city (getAddressFromCoords_resume o))
  && strict_neq_string (city (getAddressFromCoords_resume o)) "Unknown" = true ->
  insights_url lat lon (city (getAddressFromCoords_resume o))
    (state (getAddressFromCoords_resume o)) = Return url ->
  exists text,
    ToString (city (getAddressFromCoords_resume o)) = Return text
    /\ fetchLocalInsights_located lat lon o w = await (AwaitInsights text) (fetch url w).
Proof.
  intros Hguard Hurl.
  unfold fetchLocalInsights_located, fetchLocalInsights_continue. rewrite Hguard, Hurl.
  unfold insights_url in Hurl.
  destruct (ToString lat); [|discriminate]. destruct (ToString lon); [|discriminate].
  destruct (ToString (city (getAddressFromCoords_resume o))) as [text|]; [|discriminate].
  exists text. split; reflexivity.
Qed.

(** X1. The insights endpoint is called from one place only and under its
    guard. A step of the component leaves the requests to /api/insights as
    they are, unless it resumes [fetchLocalInsights] with an address whose
    city is truthy and other than "Unknown"; and whenever it does so and the
    URL can be built, it issues exactly one such request, with that URL. *)
Theorem insights_only_for_resolved_city :
  (forall (w w' : World) (ev : Event),
      step w ev = Some w' ->
      (insights_calls w' = insights_calls w
       /\ filter is_insights_request (fetched w') = filter is_insights_request (fetched w))
      \/ exists id lat lon o url,
          ev = Settle id (Fetched o)
          /\ lookup_pending id (pending w) = Some (AwaitReverseGeocode lat lon)
          /\ ToBoolean (city (getAddressFromCoords_resume o))
             && strict_neq_string (city (getAddressFromCoords_resume o)) "Unknown" = true
          /\ insights_url lat lon (city (getAddressFromCoords_resume o))
               (state (getAddressFromCoords_resume o)) = Return url
          /\ fetched w' = (fetched w ++ [url])%list
          /\ insights_calls w' = S (insights_calls w))
  /\ (forall (w : World) (id : nat) (lat lon : JsValue) (o : FetchOutcome) (url : string),
         lookup_pending id (pending w) = Some (AwaitReverseGeocode lat lon) ->
         ToBoolean (city (getAddressFromCoords_resume o))
         && strict_neq_string (city (getAddressFromCoords_resume o)) "Unknown" = true ->
         insights_url lat lon (city (getAddressFromCoords_resume o))
           (state (getAddressFromCoords_resume o)) = Return url ->
         exists w',
           step w (Settle id (Fetched o)) = Some w'
           /\ fetched w' = (fetched w ++ [url])%list
           /\ insights_calls w' = S (insights_calls w)).
Proof.
  assert (Hone : forall (w : World) (url : string) lat lon c st,
             insights_url lat lon c st = Return url ->
             length (filter is_insights_request (fetched w ++ [url]))
             = S (insights_calls w)).
  { intros w url lat lon c st Hurl. unfold insights_calls.
    rewrite filter_app, length_app. cbn [filter].
    rewrite (insights_url_kind _ _ _ _ _ Hurl). cbn. lia. }
  split.
  - intros w w' ev Hstep.
    assert (Hsame : forall (w1 : World) (urls : list string),
               filter is_insights_request urls = [] ->
               fetched w1 = (fetched w ++ urls)%list ->
               insights_calls w1 = insights_calls w
               /\ filter is_insights_request (fetched w1)
                  = filter is_insights_request (fetched w)).
    { intros w1 urls Hnone Hf. unfold insights_calls.
      rewrite Hf, filter_app, Hnone, app_nil_r. split; reflexivity. }
    assert (Hlocate : insights_calls (locateUser w) = insights_calls w
                      /\ filter is_insights_request (fetched (locateUser w))
                         = filter is_insights_request (fetched w)).
    { unfold locateUser. cbn [geolocation setLocationStatus setLocationError].
      destruct (negb (geolocation w)).
      - apply (Hsame _ [ip_location_url]); reflexivity.
      - apply (Hsame _ []); [reflexivity|cbn; now rewrite app_nil_r]. }
    destruct ev as [t|id s| | | | ]; cbn [step] in Hstep.
    + left. unfold elapse in Hstep. destruct (t <? now w); [discriminate|].
      injection Hstep as <-. apply (Hsame _ []); [reflexivity|].
      cbn [fetched set_now]. rewrite (proj1 (fire_keeps t (timers w) w)).
      now rewrite app_nil_r.
    + split_settle Hstep; split_outcome;
        try (left; apply (Hsame _ []); [reflexivity | cbn; now rewrite app_nil_r]);
        try (left; apply (Hsame _ [ip_location_url]); reflexivity);
        try (left;
             match goal with
             | Hurl : reverse_geocode_url _ _ = Return ?u |- _ =>
                 apply (Hsame _ [u]);
                 [cbn [filter]; rewrite (reverse_geocode_url_kind _ _ _ Hurl); reflexivity
                 |reflexivity]
             end).
      right. do 5 eexists.
      split; [reflexivity|]. split; [exact Hk|]. split; [exact Hguard|].
      split; [exact Hinsights|]. split; [reflexivity|].
      unfold insights_calls at 1. cbn [fetched fetch await set_pending].
      exact (Hone w _ _ _ _ _ Hinsights).
    + left. injection Hstep as <-.
      apply (Hsame _ []); [reflexivity|cbn; now rewrite app_nil_r].
    + left. injection Hstep as <-. exact Hlocate.
    + left. destruct (isAnalyzing w); injection Hstep as <-;
        apply (Hsame _ []); try reflexivity; cbn; now rewrite app_nil_r.
    + left. destruct (retry_visible w); injection Hstep as <-; [exact Hlocate|].
      apply (Hsame _ []); [reflexivity|now rewrite app_nil_r].
  - intros w id lat lon o url Hk Hguard Hurl.
    destruct (fetchLocalInsights_located_requests lat lon o url
                (set_pending (remove_pending id (pending w)) w) Hguard Hurl)
      as (text & _ & Hloc).
    cbn [step]. unfold settle. rewrite Hk, Hloc.
    eexists. split; [reflexivity|]. split; [reflexivity|].
    unfold insights_calls at 1. cbn [fetched fetch await set_pending].
    exact (Hone w _ _ _ _ _ Hurl).
Qed.

(** X2. The whole success path: once an attempt has a position, from the
    device or from the network, an address with a usable city that can be
    printed into the request and a successful answer of the backend end it
    with [localInsights] equal to the parsed body, whatever that is, the
    status "Live Data Active", no error, one request to /api/insights
    carrying the position and the address, and one more log line naming the
    city. *)
Theorem resolution_success
    (w w1 : World) (lat lon : JsValue) (g : FetchOutcome) (body : JsValue) (url : string) :
  reaches_address w w1 lat lon ->
  ToBoolean (city (getAddressFromCoords_resume g))
  && strict_neq_string (city (getAddressFromCoords_resume g)) "Unknown" = true ->
  insights_url lat lon (city (getAddressFromCoords_resume g))
    (state (getAddressFromCoords_resume g)) = Return url ->
  exists w2 w3 text,
    ToString (city (getAddressFromCoords_resume g)) = Return text
    /\ settle (newest w1) (Fetched g) w1 = Some w2
    /\ settle (newest w2) (Fetched (FetchResponse true (Some body))) w2 = Some w3
    /\ localInsights w3 = body
    /\ locationStatus w3 = "Live Data Active"
    /\ locationError w3 = None
    /\ fetched w3 = (fetched w1 ++ [url])%list
    /\ insights_calls w3 = S (insights_calls w)
    /\ logs w3
       = (logs w1
            ++ [log_line (now w1) ("Environment analysis for " ++ text ++ " complete.")])%list.
Proof.
  intros Hreach Hguard Hurl.
  destruct (reaches_address_spec w w1 lat lon Hreach) as (Herr & Hk & Hcalls & _).
  destruct (fetchLocalInsights_located_requests lat lon g url
              (set_pending (remove_pending (newest w1) (pending w1)) w1) Hguard Hurl)
    as (text & Htext & Hloc).
  eexists. eexists. exists text. split; [exact Htext|]. split.
  { unfold settle. rewrite Hk, Hloc. reflexivity. }
  split.
  { unfold settle, newest. cbn [next_id pending await fetch set_pending Nat.pred].
    rewrite lookup_pending_head. reflexivity. }
  cbn. repeat split; try reflexivity; try assumption.
  unfold insights_calls in *. cbn [fetched].
  rewrite filter_app, length_app, Hcalls. cbn [filter].
  rewrite (insights_url_kind _ _ _ _ _ Hurl). cbn. lia.
Qed.

(** X3. An answer of the reverse geocoder that has no usable name does not
    stop the attempt: the city becomes "Unknown Location", which passes the
    guard of [fetchLocalInsights], and, the position and the country
    printing as [lat], [lon] and [country], the insights request is made
    with that city. *)
Theorem nameless_locality_still_fetches
    (w : World) (id : nat) (lat lon : JsValue) (ok : bool)
    (props : list (string * JsValue)) (lat_text lon_text country : string) :
  lookup_pending id (pending w) = Some (AwaitReverseGeocode lat lon) ->
  ToBoolean (lookup_prop "city" props) = false ->
  ToBoolean (lookup_prop "locality" props) = false ->
  ToBoolean (lookup_prop "principalSubdivision" props) = false ->
  ToString lat = Return lat_text ->
  ToString lon = Return lon_text ->
  ToString (first_non_empty [lookup_prop "countryName" props] (JsString ""))
  = Return country ->
  exists w',
    settle id (Fetched (FetchResponse ok (Some (JsObject props)))) w = Some w'
    /\ fetched w'
       = (fetched w
            ++ [("http://localhost:8000/api/insights?lat=" ++ lat_text ++ "&lon="
                   ++ lon_text ++ "&city=Unknown Location&state=" ++ country)%string])%list
    /\ lookup_pending (newest w') (pending w') = Some (AwaitInsights "Unknown Location")
    /\ insights_calls w' = S (insights_calls w)
    /\ locationStatus w' = locationStatus w.
Proof.
  intros Hk Hc Hl Hp Hlat Hlon Hcountry.
  assert (Ha : getAddressFromCoords_resume (FetchResponse ok (Some (JsObject props)))
               = {| city := JsString "Unknown Location";
                    state := first_non_empty [lookup_prop "countryName" props]
                               (JsString "") |}).
  { unfold getAddressFromCoords_resume.
    cbv [response_json bind Get or_else try_catch first_non_empty].
    rewrite Hc, Hl, Hp.
    destruct (ToBoolean (lookup_prop "countryName" props)); reflexivity. }
  unfold settle. rewrite Hk.
  unfold fetchLocalInsights_located, fetchLocalInsights_continue. rewrite Ha.
  cbn [city state]. unfold insights_url. rewrite Hlat, Hlon, Hcountry.
  cbn [ToString bind ToBoolean strict_neq_string String.eqb Ascii.eqb Bool.eqb negb andb].
  eexists; split; [reflexivity|].
  split; [reflexivity|]. split.
  { unfold newest. cbn. now rewrite Nat.eqb_refl. }
  split; [|reflexivity].
  unfold insights_calls. cbn [fetched fetch await set_pending].
  rewrite filter_app, length_app. cbn. lia.
Qed.

(** X4. [fetchLocalInsights] stores a successful body without looking at its
    shape: when the body is truthy but has no [location] (absent or [null]),
    the attempt still ends in "Live Data Active", and the expression of the
    location indicator then throws a TypeError. *)
Theorem stored_insights_may_not_render
    (w : World) (id : nat) (city : string) (body location : JsValue) :
  lookup_pending id (pending w) = Some (AwaitInsights city) ->
  locationError w = None ->
  ToBoolean body = true ->
  Get body "location" = Return location ->
  location = JsUndefined \/ location = JsNull ->
  exists w',
    settle id (Fetched (FetchResponse true (Some body))) w = Some w'
    /\ localInsights w' = body
    /\ locationStatus w' = "Live Data Active"
    /\ locationError w' = None
    /\ location_indicator w' = Throw TypeError.
Proof.
  intros Hk Herr Htruthy Hloc Hmissing.
  unfold settle. rewrite Hk.
  eexists; split; [reflexivity|].
  split; [reflexivity|]. split; [reflexivity|]. split; [exact Herr|].
  unfold location_indicator. cbn [locationError localInsights fetchLocalInsights_resume
    try_catch bind response_ok response_json negb addLog setLogs setLocationStatus
    setLocalInsights set_pending].
  rewrite Herr, Htruthy, Hloc.
  destruct Hmissing as [-> | ->]; reflexivity.
Qed.

(** X5. A successful answer of the backend does not clear [locationError]:
    when an error is set (by an attempt started meanwhile), the new insights
    are stored and the status becomes "Live Data Active", but the indicator
    keeps showing the error and the [Retry Location] button stays. *)
Theorem success_keeps_error
    (w : World) (id : nat) (city : string) (body : JsValue) (e : string) :
  lookup_pending id (pending w) = Some (AwaitInsights city) ->
  locationError w = Some e ->
  e <> "" ->
  exists w',
    settle id (Fetched (FetchResponse true (Some body))) w = Some w'
    /\ localInsights w' = body
    /\ locationStatus w' = "Live Data Active"
    /\ locationError w' = Some e
    /\ location_indicator w' = Return e
    /\ retry_visible w' = true.
Proof.
  intros Hk Herr He.
  apply String.eqb_neq in He.
  unfold settle. rewrite Hk.
  eexists; split; [reflexivity|].
  split; [reflexivity|]. split; [reflexivity|]. split; [exact Herr|].
  unfold location_indicator, retry_visible.
  cbn [locationError localInsights fetchLocalInsights_resume
    try_catch bind response_ok response_json negb addLog setLogs setLocationStatus
    setLocalInsights set_pending].
  rewrite Herr, He. cbn [negb]. split; [reflexivity|apply orb_true_r].
Qed.

(** X6. The analysis side never touches the location pipeline: time passing,
    a call of [runAnalysis] and the settlement of either of its calls leave
    [locationStatus], [locationError], [localInsights] and the requests made
    exactly as they were. *)
Theorem analysis_side_keeps_location (w w' : World) (ev : Event) :
  step w ev = Some w' ->
  analysis_event w ev = true ->
  locationStatus w' = locationStatus w
  /\ locationError w' = locationError w
  /\ localInsights w' = localInsights w
  /\ fetched w' = fetched w.
Proof.
  intros Hstep Hev.
  destruct ev as [t|id s| | | | ]; cbn [analysis_event] in Hev; try discriminate;
    cbn [step] in Hstep.
  - unfold elapse in Hstep. destruct (t <? now w); [discriminate|].
    injection Hstep as <-.
    destruct (fire_location t (timers w) w) as (_ & He & Hs & Hi).
    destruct (fire_keeps t (timers w) w) as (Hf & _).
    cbn [locationError locationStatus localInsights fetched set_now].
    rewrite He, Hs, Hi, Hf. repeat split.
  - unfold settle in Hstep.
    destruct (lookup_pending id (pending w)) as [k|]; [|discriminate].
    destruct k; cbn [analysis_continuation] in Hev; try discriminate;
      destruct s; try discriminate; injection Hstep as <-; repeat split.
  - injection Hstep as <-. repeat split.
  - destruct (isAnalyzing w); injection Hstep as <-; repeat split.
Qed.

(** X7. The location pipeline never touches the analysis: starting an
    attempt and settling any of its requests leave [analysis], [regions],
    [isAnalyzing], the timers and the clock as they were. The log is the one
    cell both sides write: an attempt adds nothing to it, or, when the
    backend answers successfully, the one line naming the city. *)
Theorem location_side_keeps_analysis (w w' : World) (ev : Event) :
  step w ev = Some w' ->
  location_event w ev = true ->
  analysis w' = analysis w
  /\ regions w' = regions w
  /\ isAnalyzing w' = isAnalyzing w
  /\ timers w' = timers w
  /\ now w' = now w
  /\ (logs w' = logs w
      \/ exists city : string,
          logs w'
          = (logs w
               ++ [log_line (now w)
                     ("Environment analysis for " ++ city ++ " complete.")])%list).
Proof.
  intros Hstep Hev.
  assert (Hlocate : analysis (locateUser w) = analysis w
                    /\ regions (locateUser w) = regions w
                    /\ isAnalyzing (locateUser w) = isAnalyzing w
                    /\ timers (locateUser w) = timers w
                    /\ now (locateUser w) = now w
                    /\ logs (locateUser w) = logs w).
  { unfold locateUser. cbn [geolocation setLocationStatus setLocationError].
    destruct (negb (geolocation w)); repeat split. }
  destruct ev as [t|id s| | | | ]; cbn [location_event] in Hev; try discriminate;
    cbn [step] in Hstep.
  - unfold settle in Hstep.
    destruct (lookup_pending id (pending w)) as [k|]; [|discriminate].
    destruct k; cbn [analysis_continuation negb] in Hev; try discriminate;
      destruct s; try discriminate; injection Hstep as <-; split_outcome;
      try (repeat split; left; reflexivity).
    repeat split. right. eexists. reflexivity.
  - injection Hstep as <-. destruct Hlocate as (H1 & H2 & H3 & H4 & H5 & H6).
    repeat split; try assumption. now left.
  - destruct (retry_visible w); injection Hstep as <-.
    + destruct Hlocate as (H1 & H2 & H3 & H4 & H5 & H6).
      repeat split; try assumption. now left.
    + repeat split. now left.
Qed.

(** *** A rejected service call *)

Lemma busy_step (w w' : World) (ev : Event) :
  analysis_idle w = true ->
  isAnalyzing w = true ->
  starts_run ev = false ->
  step w ev = Some w' ->
  analysis_idle w' = true
  /\ isAnalyzing w' = true
  /\ analysis w' = analysis w
  /\ regions w' = regions w.
Proof.
  unfold analysis_idle. intros Hidle Hbusy Hev Hstep.
  assert (Hlocate : forallb (fun p => negb (analysis_continuation (snd p)))
                      (pending (locateUser w)) = true
                    /\ isAnalyzing (locateUser w) = true
                    /\ analysis (locateUser w) = analysis w
                    /\ regions (locateUser w) = regions w).
  { unfold locateUser. cbn [geolocation setLocationStatus setLocationError].
    destruct (negb (geolocation w)); cbn; rewrite Hidle; auto. }
  destruct ev as [t|id s| | | | ]; cbn [starts_run] in Hev; try discriminate;
    cbn [step] in Hstep.
  - unfold elapse in Hstep. destruct (t <? now w); [discriminate|].
    injection Hstep as <-.
    destruct (fire_location t (timers w) w) as (Hp & _).
    destruct (fire_keeps t (timers w) w) as (_ & _ & _ & Ha & Hr & Hi).
    cbn [pending isAnalyzing analysis regions set_now].
    rewrite Hp, Ha, Hr, Hi. auto.
  - unfold settle in Hstep.
    destruct (lookup_pending id (pending w)) as [k|] eqn:Hk; [|discriminate].
    pose proof (remove_pending_forallb _ id _ Hidle) as Hrem.
    apply lookup_pending_In in Hk.
    rewrite forallb_forall in Hidle. specialize (Hidle _ Hk). cbn [snd] in Hidle.
    destruct k; cbn [analysis_continuation negb] in Hidle; try discriminate;
      destruct s; try discriminate; injection Hstep as <-; split_outcome;
      cbn; rewrite ?Hrem; auto.
  - injection Hstep as <-. exact Hlocate.
  - rewrite Hbusy in Hstep. injection Hstep as <-. rewrite forallb_forall in Hidle.
    repeat split; try assumption. now apply forallb_forall.
  - destruct (retry_visible w); injection Hstep as <-; [exact Hlocate|].
    auto.
Qed.

Lemma busy_run (es : list Event) :
  forall w w' : World,
    analysis_idle w = true ->
    isAnalyzing w = true ->
    forallb (fun ev => negb (starts_run ev)) es = true ->
    run w es = Some w' ->
    isAnalyzing w' = true
    /\ analysis w' = analysis w
    /\ regions w' = regions w.
Proof.
  induction es as [|ev rest IH]; intros w w' Hidle Hbusy Hes Hrun; cbn [run] in Hrun.
  - injection Hrun as <-. auto.
  - cbn [forallb] in Hes. apply andb_true_iff in Hes as [Hev Hrest].
    apply negb_true_iff in Hev.
    destruct (step w ev) as [w1|] eqn:Hstep; [|discriminate].
    destruct (busy_step w w1 ev Hidle Hbusy Hev Hstep) as (H1 & H2 & Ha & Hr).
    destruct (IH w1 w' H1 H2 Hrest Hrun) as (H3 & Ha' & Hr').
    rewrite Ha', Hr'. auto.
Qed.

(** X8. [runAnalysis] has no handler: when either [AIService] call of the
    only run in flight is rejected, nothing is stored or logged and
    [isAnalyzing] stays [true]. From then on no event other than a direct
    call of [runAnalysis] changes that: the [Run AI Agent] button stays
    disabled and [analysis] and [regions] keep their old values. *)
Theorem rejected_run_stays_busy
    (w : World) (id : nat) (k : Pending) (es : list Event) :
  lookup_pending id (pending w) = Some k ->
  analysis_continuation k = true ->
  forallb (fun p => negb (analysis_continuation (snd p))) (remove_pending id (pending w))
  = true ->
  isAnalyzing w = true ->
  forallb (fun ev => negb (starts_run ev)) es = true ->
  exists w1,
    settle id ServiceRejected w = Some w1
    /\ analysis w1 = analysis w
    /\ regions w1 = regions w
    /\ logs w1 = logs w
    /\ isAnalyzing w1 = true
    /\ forall w2 : World,
        run w1 es = Some w2 ->
        isAnalyzing w2 = true
        /\ analysis w2 = analysis w
        /\ regions w2 = regions w
        /\ step w2 Click_RunAgent = Some w2.
Proof.
  intros Hk Hkind Hothers Hbusy Hes.
  unfold settle. rewrite Hk.
  destruct k; cbn [analysis_continuation] in Hkind; try discriminate;
    (eexists; split; [reflexivity|]);
    (split; [reflexivity|]); (split; [reflexivity|]); (split; [reflexivity|]);
    (split; [exact Hbusy|]);
    intros w2 Hrun;
    (eapply busy_run in Hrun; [|exact Hothers|exact Hbusy|exact Hes]);
    destruct Hrun as (H1 & H2 & H3);
    cbn [analysis regions set_pending] in H2, H3;
    (repeat split; try assumption);
    cbn [step]; now rewrite H1.
Qed.

(** *** The values of the location state *)

Lemma step_location_values (w w' : World) (ev : Event) :
  step w ev = Some w' ->
  (locationStatus w' = locationStatus w \/ In (locationStatus w') location_statuses)
  /\ (locationError w' = locationError w \/ In (locationError w') location_errors).
Proof.
  intros Hstep.
  assert (Hlocate : In (locationStatus (locateUser w)) location_statuses
                    /\ In (locationError (locateUser w)) location_errors).
  { unfold locateUser. cbn [geolocation setLocationStatus setLocationError].
    destruct (negb (geolocation w)); cbn; auto 12. }
  destruct ev as [t|id s| | | | ]; cbn [step] in Hstep.
  - unfold elapse in Hstep. destruct (t <? now w); [discriminate|].
    injection Hstep as <-.
    destruct (fire_location t (timers w) w) as (_ & He & Hs & _).
    cbn [locationError locationStatus set_now]. rewrite He, Hs. auto.
  - split_settle Hstep; split_outcome; cbn; auto 12.
  - injection Hstep as <-. cbn. auto.
  - injection Hstep as <-. tauto.
  - destruct (isAnalyzing w); injection Hstep as <-; cbn; auto.
  - destruct (retry_visible w); injection Hstep as <-; [tauto|auto].
Qed.

(** X9. The location state only ever holds the values the source writes:
    in every state the component reaches from its initial one,
    [locationStatus] is one of eight texts and [locationError] is [null] or
    one of two messages. *)
Theorem reachable_location_values (geo : bool) (es : list Event) (w : World) :
  run (initial geo) es = Some w ->
  In (locationStatus w) location_statuses /\ In (locationError w) location_errors.
Proof.
  assert (Hgen : forall (es : list Event) (w0 w : World),
             In (locationStatus w0) location_statuses ->
             In (locationError w0) location_errors ->
             run w0 es = Some w ->
             In (locationStatus w) location_statuses
             /\ In (locationError w) location_errors).
  { clear. induction es as [|ev rest IH]; intros w0 w Hs He Hrun; cbn [run] in Hrun.
    - injection Hrun as <-. auto.
    - destruct (step w0 ev) as [w1|] eqn:Hstep; [|discriminate].
      destruct (step_location_values w0 w1 ev Hstep) as [HS HE].
      apply (IH w1 w); [destruct HS as [->|]; assumption
                       |destruct HE as [->|]; assumption
                       |exact Hrun]. }
  apply Hgen; cbn; auto.
Qed.

(** *** Timers and the log *)

Lemma fire_appends (t : Z) (q : list (Z * string)) :
  forall w : World, exists added, logs (fire t q w) = (logs w ++ added)%list.
Proof.
  induction q as [|[due msg] rest IH]; intros w; cbn [fire].
  - exists []. now rewrite app_nil_r.
  - destruct (due <=? t).
    + destruct (IH (addLog msg (set_now due (set_timers rest w)))) as [added Hadded].
      rewrite Hadded. cbn. rewrite <- app_assoc. eexists. reflexivity.
    + exists []. now rewrite app_nil_r.
Qed.

Lemma fire_timers (t : Z) (q : list (Z * string)) :
  forall w : World,
    timers w = q ->
    forall p, In p q ->
      In p (timers (fire t q w)) \/ In (log_line (fst p) (snd p)) (logs (fire t q w)).
Proof.
  induction q as [|[due msg] rest IH]; intros w Hq p Hp; [destruct Hp|].
  cbn [fire]. destruct (due <=? t).
  - destruct Hp as [<-|Hp].
    + right.
      destruct (fire_appends t rest (addLog msg (set_now due (set_timers rest w))))
        as [added ->].
      cbn. apply in_or_app. left. apply in_or_app. right. now left.
    + apply IH; [reflexivity|exact Hp].
  - left. rewrite Hq. exact Hp.
Qed.

(** X10. No timer is ever cancelled: whatever happens to the component, a
    timer that is queued is still queued afterwards or has fired and written
    its line to the log. In particular a call of [runAnalysis] keeps the
    timers of the run before it, whose lines then appear in the new log. *)
Theorem timers_are_never_cancelled (w w' : World) (ev : Event) (p : Z * string) :
  step w ev = Some w' ->
  In p (timers w) ->
  In p (timers w') \/ In (log_line (fst p) (snd p)) (logs w').
Proof.
  intros Hstep Hp.
  assert (Hrun : In p (timers (runAnalysis w))).
  { unfold runAnalysis, setTimeout. cbn. now repeat apply enqueue_In. }
  assert (Hlocate : timers (locateUser w) = timers w).
  { unfold locateUser. cbn [geolocation setLocationStatus setLocationError].
    destruct (negb (geolocation w)); reflexivity. }
  destruct ev as [t|id s| | | | ]; cbn [step] in Hstep.
  - unfold elapse in Hstep. destruct (t <? now w); [discriminate|].
    injection Hstep as <-. cbn [timers logs set_now].
    apply fire_timers; [reflexivity|exact Hp].
  - left. split_settle Hstep; split_outcome; exact Hp.
  - left. injection Hstep as <-. exact Hrun.
  - left. injection Hstep as <-. rewrite Hlocate. exact Hp.
  - left. destruct (isAnalyzing w); injection Hstep as <-; assumption.
  - left. destruct (retry_visible w); injection Hstep as <-; [rewrite Hlocate|]; exact Hp.
Qed.

(** X11. The log is append-only between runs: every event either extends the
    log at its end, or is a start of [runAnalysis] (a direct call, or a click
    on the enabled button), which replaces the log by the single line
    "Initializing AI Agent...". Nothing else removes or rewrites a line. *)
Theorem log_is_append_only (w w' : World) (ev : Event) :
  step w ev = Some w' ->
  (exists added, logs w' = (logs w ++ added)%list)
  \/ (logs w' = [log_line (now w) "Initializing AI Agent..."]
      /\ (ev = Call_runAnalysis \/ (ev = Click_RunAgent /\ isAnalyzing w = false))).
Proof.
  intros Hstep.
  assert (Hlocate : logs (locateUser w) = logs w).
  { unfold locateUser. cbn [geolocation setLocationStatus setLocationError].
    destruct (negb (geolocation w)); reflexivity. }
  assert (Hnone : forall w1 : World,
             logs w1 = logs w -> exists added, logs w1 = (logs w ++ added)%list).
  { intros w1 ->. exists []. now rewrite app_nil_r. }
  destruct ev as [t|id s| | | | ]; cbn [step] in Hstep.
  - left. unfold elapse in Hstep. destruct (t <? now w); [discriminate|].
    injection Hstep as <-. cbn [logs set_now]. apply fire_appends.
  - left. split_settle Hstep; split_outcome;
      try (apply Hnone; reflexivity); eexists; reflexivity.
  - right. injection Hstep as <-. split; [reflexivity|now left].
  - left. injection Hstep as <-. apply Hnone, Hlocate.
  - destruct (isAnalyzing w) eqn:Hbusy; injection Hstep as <-.
    + left. apply Hnone. reflexivity.
    + right. split; [reflexivity|]. right. split; reflexivity.
  - left. destruct (retry_visible w); injection Hstep as <-; apply Hnone;
      [exact Hlocate|reflexivity].
Qed.

(** X12. The forecast and the regional list are published together or not at
    all: a step of the component changes [analysis] or [regions] only when
    the regional-risk call of a run resolves, and then it stores that run's
    forecast and regions at once and clears [isAnalyzing]. A forecast whose
    regional-risk call never resolves is never shown, and [analysis] is
    never set back to [null]. *)
Theorem results_are_published_together (w w' : World) (ev : Event) :
  step w ev = Some w' ->
  (analysis w' = analysis w /\ regions w' = regions w)
  \/ exists id result regionData,
      ev = Settle id (RegionsResolved regionData)
      /\ lookup_pending id (pending w) = Some (AwaitRegionalRisk result)
      /\ analysis w' = Some result
      /\ regions w' = regionData
      /\ isAnalyzing w' = false.
Proof.
  intros Hstep.
  assert (Hlocate : analysis (locateUser w) = analysis w
                    /\ regions (locateUser w) = regions w).
  { unfold locateUser. cbn [geolocation setLocationStatus setLocationError].
    destruct (negb (geolocation w)); split; reflexivity. }
  destruct ev as [t|id s| | | | ]; cbn [step] in Hstep.
  - left. unfold elapse in Hstep. destruct (t <? now w); [discriminate|].
    injection Hstep as <-.
    destruct (fire_keeps t (timers w) w) as (_ & _ & _ & Ha & Hr & _).
    cbn [analysis regions set_now]. rewrite Ha, Hr. split; reflexivity.
  - split_settle Hstep; split_outcome; try (left; split; reflexivity).
    right. do 3 eexists. split; [reflexivity|]. split; [exact Hk|].
    repeat split.
  - left. injection Hstep as <-. split; reflexivity.
  - left. injection Hstep as <-. exact Hlocate.
  - left. destruct (isAnalyzing w); injection Hstep as <-; split; reflexivity.
  - left. destruct (retry_visible w); injection Hstep as <-; [exact Hlocate|].
    split; reflexivity.
Qed.

Lemma reverse_geocode_url_not_ip (lat lon : JsValue) (url : string) :
  reverse_geocode_url lat lon = Return url -> String.eqb ip_location_url url = false.
Proof.
  unfold reverse_geocode_url. destruct (ToString lat); [|discriminate].
  destruct (ToString lon); [|discriminate]. cbn [bind]. intros [= <-]. reflexivity.
Qed.

Lemma insights_url_not_ip (lat lon city state : JsValue) (url : string) :
  insights_url lat lon city state = Return url -> String.eqb ip_location_url url = false.
Proof.
  unfold insights_url. destruct (ToString lat); [|discriminate].
  destruct (ToString lon); [|discriminate]. destruct (ToString city); [|discriminate].
  destruct (ToString state); [|discriminate]. cbn [bind]. intros [= <-]. reflexivity.
Qed.

(** X15. The IP lookup is a fallback, and only that. It is called, once,
    when [locateUser] runs without geolocation support and when the error
    callback of [getCurrentPosition] fires; and a step of the component
    calls it at no other time: a position given by the device, an address
    or an insights answer never lead to it. *)
Theorem ip_lookup_only_as_fallback :
  (forall w : World,
      geolocation w = false ->
      fetched (locateUser w) = (fetched w ++ [ip_location_url])%list
      /\ ip_lookups (locateUser w) = (ip_lookups w ++ [ip_location_url])%list
      /\ lookup_pending (newest (locateUser w)) (pending (locateUser w))
         = Some AwaitIpLocation)
  /\ (forall (w : World) (id : nat) (e : GeoError),
         lookup_pending id (pending w) = Some AwaitGeolocation ->
         exists w',
           step w (Settle id (GeoFailure e)) = Some w'
           /\ fetched w' = (fetched w ++ [ip_location_url])%list
           /\ ip_lookups w' = (ip_lookups w ++ [ip_location_url])%list
           /\ lookup_pending (newest w') (pending w') = Some AwaitIpLocation)
  /\ (forall (w w' : World) (ev : Event),
         step w ev = Some w' ->
         ip_lookups w' = ip_lookups w
         \/ (geolocation w = false /\ starts_resolution ev = true /\ w' = locateUser w)
         \/ exists id e,
             ev = Settle id (GeoFailure e)
             /\ lookup_pending id (pending w) = Some AwaitGeolocation).
Proof.
  split; [|split].
  - intros w Hgeo. unfold locateUser, ip_lookups, newest.
    cbn [geolocation setLocationStatus setLocationError]. rewrite Hgeo.
    cbn. rewrite filter_app, Nat.eqb_refl. repeat split.
  - intros w id e Hk. cbn [step]. unfold settle. rewrite Hk.
    eexists. split; [reflexivity|]. unfold ip_lookups, newest.
    cbn. rewrite filter_app, Nat.eqb_refl. repeat split.
  - intros w w' ev Hstep.
    assert (Hsame : forall (w1 : World) (urls : list string),
               filter (String.eqb ip_location_url) urls = [] ->
               fetched w1 = (fetched w ++ urls)%list ->
               ip_lookups w1 = ip_lookups w).
    { intros w1 urls Hnone Hf. unfold ip_lookups.
      rewrite Hf, filter_app, Hnone, app_nil_r. reflexivity. }
    assert (Hlocate : ip_lookups (locateUser w) = ip_lookups w
                      \/ (geolocation w = false /\ locateUser w = locateUser w)).
    { destruct (geolocation w) eqn:Hgeo; [left|right; split; reflexivity].
      unfold locateUser. cbn [geolocation setLocationStatus setLocationError].
      rewrite Hgeo. apply (Hsame _ []); [reflexivity|cbn; now rewrite app_nil_r]. }
    destruct ev as [t|id s| | | | ]; cbn [step] in Hstep.
    + left. unfold elapse in Hstep. destruct (t <? now w); [discriminate|].
      injection Hstep as <-. apply (Hsame _ []); [reflexivity|].
      cbn [fetched set_now]. rewrite (proj1 (fire_keeps t (timers w) w)).
      now rewrite app_nil_r.
    + split_settle Hstep;
        try (right; right; do 2 eexists; split; [reflexivity|exact Hk]);
        split_outcome;
        try (left; apply (Hsame _ []); [reflexivity | cbn; now rewrite app_nil_r]);
        try (left;
             match goal with
             | Hurl : reverse_geocode_url _ _ = Return ?u |- _ =>
                 apply (Hsame _ [u]);
                 [cbn [filter]; rewrite (reverse_geocode_url_not_ip _ _ _ Hurl); reflexivity
                 |reflexivity]
             end);
        try (left;
             match goal with
             | Hurl : insights_url _ _ _ _ = Return ?u |- _ =>
                 apply (Hsame _ [u]);
                 [cbn [filter]; rewrite (insights_url_not_ip _ _ _ _ _ Hurl); reflexivity
                 |reflexivity]
             end).
    + left. injection Hstep as <-.
      apply (Hsame _ []); [reflexivity|cbn; now rewrite app_nil_r].
    + injection Hstep as <-. destruct Hlocate as [H|[H _]]; [now left|].
      right. left. repeat split. exact H.
    + left. destruct (isAnalyzing w); injection Hstep as <-;
        apply (Hsame _ []); try reflexivity; cbn; now rewrite app_nil_r.
    + destruct (retry_visible w); injection Hstep as <-.
      * destruct Hlocate as [H|[H _]]; [now left|].
        right. left. repeat split. exact H.
      * left. reflexivity.
Qed.

(** ** The analysis run beside the location pipeline *)

Lemma wel_refl (l : list string) : with_environment_lines l l.
Proof. induction l; constructor; assumption. Qed.

Lemma wel_app (l1 own1 l2 own2 : list string) :
  with_environment_lines l1 own1 ->
  with_environment_lines l2 own2 ->
  with_environment_lines (l1 ++ l2) (own1 ++ own2).
Proof.
  induction 1; intros H2; cbn [app]; [exact H2| |]; constructor; auto.
Qed.

Lemma wel_app_own (l own added : list string) :
  with_environment_lines l own -> with_environment_lines (l ++ added) (own ++ added).
Proof. intros H. apply wel_app; [exact H | apply wel_refl]. Qed.

Lemma wel_app_environment (l own : list string) (t : Z) (city : string) :
  with_environment_lines l own ->
  with_environment_lines
    (l ++ [log_line t ("Environment analysis for " ++ city ++ " complete.")]) own.
Proof.
  intros H. rewrite <- (app_nil_r own). apply wel_app; [exact H|].
  constructor. constructor.
Qed.

Lemma lookup_remove_other (id id' : nat) (p : list (nat * Pending)) :
  id <> id' -> lookup_pending id (remove_pending id' p) = lookup_pending id p.
Proof.
  intros Hne. induction p as [|[i k] rest IH]; [reflexivity|].
  cbn [remove_pending lookup_pending].
  destruct (Nat.eqb_spec i id'); destruct (Nat.eqb_spec i id); subst;
    cbn [lookup_pending]; try contradiction; try exact IH.
  - now rewrite Nat.eqb_refl.
  - destruct (Nat.eqb_spec i id); [contradiction|exact IH].
Qed.

(** What an event of the location pipeline does to the rest of the
    component. *)
Lemma location_step_frame (w w' : World) (ev : Event) :
  step w ev = Some w' ->
  location_event w ev = true ->
  timers w' = timers w
  /\ now w' = now w
  /\ (logs w' = logs w
      \/ exists city : string,
          logs w'
          = (logs w
               ++ [log_line (now w)
                     ("Environment analysis for " ++ city ++ " complete.")])%list)
  /\ (next_id w <= next_id w')%nat
  /\ (forall (id : nat) (k : Pending),
         analysis_continuation k = true ->
         (id < next_id w)%nat ->
         lookup_pending id (pending w) = Some k ->
         lookup_pending id (pending w') = Some k).
Proof.
  intros Hstep Hev.
  assert (Hfresh : forall (id : nat) (k k' : Pending) (p : list (nat * Pending)),
             (id < next_id w)%nat ->
             lookup_pending id p = Some k ->
             lookup_pending id ((next_id w, k') :: p) = Some k).
  { intros id k k' p Hlt Hp. cbn [lookup_pending].
    destruct (Nat.eqb_spec (next_id w) id); [lia|exact Hp]. }
  assert (Hlocate : timers (locateUser w) = timers w
                    /\ now (locateUser w) = now w
                    /\ logs (locateUser w) = logs w
                    /\ (next_id w <= next_id (locateUser w))%nat
                    /\ (forall (id : nat) (k : Pending),
                           (id < next_id w)%nat ->
                           lookup_pending id (pending w) = Some k ->
                           lookup_pending id (pending (locateUser w)) = Some k)).
  { unfold locateUser. cbn [geolocation setLocationStatus setLocationError].
    destruct (negb (geolocation w)); cbn;
      (repeat split; [lia|]); intros id k Hlt Hp; now apply Hfresh. }
  destruct ev as [t|id' s| | | | ]; cbn [location_event] in Hev; try discriminate;
    cbn [step] in Hstep.
  - unfold settle in Hstep.
    destruct (lookup_pending id' (pending w)) as [k'|] eqn:Hk'; [|discriminate].
    assert (Hother : forall (id : nat) (k : Pending),
               analysis_continuation k = true ->
               lookup_pending id (pending w) = Some k ->
               lookup_pending id (remove_pending id' (pending w)) = Some k).
    { intros id k Hkind Hp. rewrite lookup_remove_other; [exact Hp|].
      intros ->. rewrite Hp in Hk'. injection Hk' as <-.
      rewrite Hkind in Hev. discriminate. }
    destruct k'; cbn [analysis_continuation negb] in Hev; try discriminate;
      destruct s; try discriminate; injection Hstep as <-; split_outcome;
      cbn;
      (split; [reflexivity|]); (split; [reflexivity|]);
      (split; [first [left; reflexivity | right; eexists; reflexivity]|]);
      (split; [lia|]);
      intros id k Hkind Hlt Hp; try (apply Hfresh; [exact Hlt|]); now apply Hother.
  - injection Hstep as <-. destruct Hlocate as (H1 & H2 & H3 & H4 & H5).
    repeat split; try assumption; [now left|]. intros id k _. apply H5.
  - destruct (retry_visible w); injection Hstep as <-.
    + destruct Hlocate as (H1 & H2 & H3 & H4 & H5).
      repeat split; try assumption; [now left|]. intros id k _. apply H5.
    + repeat split; [now left|lia|]. intros id k _ _ Hp. exact Hp.
Qed.

Lemma due_by_after_same (t : Z) (q : list (Z * string)) : due_by t (due_after t q) = [].
Proof.
  unfold due_by, due_after. induction q as [|[d m] rest IH]; [reflexivity|].
  cbn [filter fst]. destruct (d <=? t) eqn:Hd; cbn [negb filter fst]; [exact IH|].
  rewrite Hd. exact IH.
Qed.

Lemma run_timers_not_due (s : Z) :
  due_by s (run_timers s) = [] /\ due_after s (run_timers s) = run_timers s.
Proof.
  unfold due_by, due_after, run_timers. cbn [filter fst].
  destruct (Z.leb_spec (s + 500) s); [lia|].
  destruct (Z.leb_spec (s + 900) s); [lia|].
  destruct (Z.leb_spec (s + 1300) s); [lia|].
  split; reflexivity.
Qed.

Lemma beside_in_flight (s : Z) (id : nat) (k : Pending) :
  analysis_continuation k = true ->
  forall (es : list Event) (w w' : World),
    run_in_flight s id k w -> run_beside w es = Some w' -> run_in_flight s id k w'.
Proof.
  intros Hkind. induction es as [|ev rest IH]; intros w w' Hinv Hrun; cbn [run_beside] in Hrun.
  - now injection Hrun as <-.
  - destruct (beside_run w ev) eqn:Hev; [|discriminate].
    destruct (step w ev) as [w1|] eqn:Hstep; [|discriminate].
    apply (IH w1 w'); [|exact Hrun]. clear IH Hrun.
    destruct Hinv as (Hq & Hs & Hlog & Hk & Hlt).
    pose proof (run_timers_sorted s) as Hsorted.
    destruct ev as [t|id' o| | | | ]; cbn [beside_run] in Hev.
    + cbn [step] in Hstep.
      assert (Hle : now w <= t).
      { unfold elapse in Hstep. destruct (Z.ltb_spec t (now w)); [discriminate|lia]. }
      destruct (elapse_spec t w) as (w1' & Heq & Hnow & Hl & Hq' & Hp & Hn & _);
        [rewrite Hq; now apply due_after_sorted | exact Hle |].
      rewrite Hstep in Heq. injection Heq as <-.
      unfold run_in_flight. rewrite Hnow, Hq', Hl, Hp, Hn, Hq.
      split; [now apply due_after_twice|]. split; [lia|].
      split; [|split; assumption].
      rewrite <- (due_by_split (now w) t _ Hsorted Hle).
      unfold lines. rewrite map_app, app_comm_cons.
      now apply wel_app_own.
    + destruct (location_step_frame w w1 _ Hstep Hev) as (Hq' & Hnow & Hl & Hn & Hp).
      unfold run_in_flight. rewrite Hq', Hnow.
      split; [exact Hq|]. split; [exact Hs|].
      split; [|split; [now apply Hp|lia]].
      destruct Hl as [-> | [city ->]]; [exact Hlog|now apply wel_app_environment].
    + discriminate.
    + destruct (location_step_frame w w1 _ Hstep Hev) as (Hq' & Hnow & Hl & Hn & Hp).
      unfold run_in_flight. rewrite Hq', Hnow.
      split; [exact Hq|]. split; [exact Hs|].
      split; [|split; [now apply Hp|lia]].
      destruct Hl as [-> | [city ->]]; [exact Hlog|now apply wel_app_environment].
    + discriminate.
    + destruct (location_step_frame w w1 _ Hstep Hev) as (Hq' & Hnow & Hl & Hn & Hp).
      unfold run_in_flight. rewrite Hq', Hnow.
      split; [exact Hq|]. split; [exact Hs|].
      split; [|split; [now apply Hp|lia]].
      destruct Hl as [-> | [city ->]]; [exact Hlog|now apply wel_app_environment].
Qed.

Lemma beside_completed (s t2 : Z) :
  forall (es : list Event) (w w' : World),
    run_completed s t2 w -> run_beside w es = Some w' -> run_completed s t2 w'.
Proof.
  induction es as [|ev rest IH]; intros w w' Hinv Hrun; cbn [run_beside] in Hrun.
  - now injection Hrun as <-.
  - destruct (beside_run w ev) eqn:Hev; [|discriminate].
    destruct (step w ev) as [w1|] eqn:Hstep; [|discriminate].
    apply (IH w1 w'); [|exact Hrun]. clear IH Hrun.
    destruct Hinv as (Hq & Ht2 & Hlog).
    pose proof (run_timers_sorted s) as Hsorted.
    assert (Hlocation : location_event w ev = true -> run_completed s t2 w1).
    { intros Hloc.
      destruct (location_step_frame w w1 _ Hstep Hloc) as (Hq' & Hnow & Hl & _).
      unfold run_completed. rewrite Hq', Hnow.
      split; [exact Hq|]. split; [exact Ht2|].
      destruct Hl as [-> | [city ->]]; [exact Hlog|now apply wel_app_environment]. }
    destruct ev as [t|id' o| | | | ]; cbn [beside_run] in Hev;
      try (now apply Hlocation); try discriminate.
    cbn [step] in Hstep.
    assert (Hle : now w <= t).
    { unfold elapse in Hstep. destruct (Z.ltb_spec t (now w)); [discriminate|lia]. }
    destruct (elapse_spec t w) as (w1' & Heq & Hnow & Hl & Hq' & _);
      [rewrite Hq; now apply due_after_sorted | exact Hle |].
    rewrite Hstep in Heq. injection Heq as <-.
    unfold run_completed. rewrite Hnow, Hq', Hl, Hq.
    split; [now apply due_after_twice|]. split; [lia|].
    rewrite <- (due_by_split (now w) t (due_after t2 (run_timers s)));
      [|now apply due_after_sorted|exact Hle].
    rewrite (due_after_twice t2 (now w) _ Ht2).
    unfold lines. rewrite map_app, !app_assoc.
    apply wel_app_own. rewrite <- !app_assoc. exact Hlog.
Qed.

(** C1 (amended). A run started at time [s] with no timer pending, while
    time passes and the location pipeline works beside it, no other run
    being started: the log is reset and holds "Initializing AI Agent..." at
    once; apart from the lines of the location pipeline, the log then holds
    that line and the lines of the timers that were due, written at
    [s + 500], [s + 900] and [s + 1300] in that order whatever the calls do,
    and no terminal line, until the regional-risk call resolves, which is
    after the forecast call has; that resolution appends "Analysis complete.
    Insights generated." and stores the results, and the later timers write
    after it. When it happens at [s + 1300] or later, the run's lines are
    exactly the five lines in the stated order. *)
Theorem analysis_run_log
    (w : World) (result : AIAnalysisResult) (regionData : list RegionStats)
    (es1 : list Event) (w1 : World) :
  timers w = [] ->
  run_beside (runAnalysis w) es1 = Some w1 ->
  logs (runAnalysis w) = [log_line (now w) "Initializing AI Agent..."]
  /\ with_environment_lines (logs w1)
       (log_line (now w) "Initializing AI Agent..."
          :: lines (due_by (now w1) (run_timers (now w))))
  /\ exists wa,
      settle (next_id w) (AnalysisResolved result) w1 = Some wa
      /\ logs wa = logs w1
      /\ forall (es2 : list Event) (w2 : World),
          run_beside wa es2 = Some w2 ->
          with_environment_lines (logs w2)
            (log_line (now w) "Initializing AI Agent..."
               :: lines (due_by (now w2) (run_timers (now w))))
          /\ exists wb,
              settle (next_id w1) (RegionsResolved regionData) w2 = Some wb
              /\ logs wb
                 = (logs w2
                      ++ [log_line (now w2) "Analysis complete. Insights generated."])%list
              /\ analysis wb = Some result
              /\ regions wb = regionData
              /\ isAnalyzing wb = false
              /\ forall (es3 : list Event) (w3 : World),
                  run_beside wb es3 = Some w3 ->
                  with_environment_lines (logs w3)
                    ((log_line (now w) "Initializing AI Agent..."
                        :: lines (due_by (now w2) (run_timers (now w))))
                       ++ [log_line (now w2) "Analysis complete. Insights generated."]
                       ++ lines (due_by (now w3) (due_after (now w2) (run_timers (now w)))))%list
                  /\ (now w + 1300 <= now w2 ->
                      with_environment_lines (logs w3)
                        [log_line (now w) "Initializing AI Agent...";
                         log_line (now w + 500) "Fetching real-time inventory data...";
                         log_line (now w + 900) "Aggregating community symptom reports...";
                         log_line (now w + 1300) "Running LLaMA-3 reasoning model...";
                         log_line (now w2) "Analysis complete. Insights generated."]).
Proof.
  intros Hq Hrun1.
  destruct (runAnalysis_spec w Hq) as (Ha_q & Ha_l & Ha_p & Ha_n & Ha_now & _).
  destruct (run_timers_not_due (now w)) as [Hby0 Hafter0].
  assert (H0 : run_in_flight (now w) (next_id w) AwaitRunAnalysis (runAnalysis w)).
  { unfold run_in_flight. rewrite Ha_q, Ha_l, Ha_p, Ha_n, Ha_now, Hby0, Hafter0.
    split; [reflexivity|]. split; [lia|]. split; [apply wel_refl|].
    split; [apply lookup_pending_head|lia]. }
  pose proof (beside_in_flight (now w) (next_id w) AwaitRunAnalysis eq_refl es1 _ _ H0 Hrun1) as (H1q & H1s & H1log & H1k & H1lt).
  split; [exact Ha_l|]. split; [exact H1log|].
  eexists. split; [unfold settle; rewrite H1k; reflexivity|].
  split; [reflexivity|].
  intros es2 w2 Hrun2.
  assert (Ha : run_in_flight (now w) (next_id w1) (AwaitRegionalRisk result)
                 (runAnalysis_result result
                    (set_pending (remove_pending (next_id w) (pending w1)) w1))).
  { unfold run_in_flight. cbn. rewrite Nat.eqb_refl.
    repeat split; try assumption. lia. }
  pose proof (beside_in_flight (now w) (next_id w1) (AwaitRegionalRisk result) eq_refl es2 _ _ Ha Hrun2) as (H2q & H2s & H2log & H2k & H2lt).
  split; [exact H2log|].
  eexists. split; [unfold settle; rewrite H2k; reflexivity|].
  split; [reflexivity|]. split; [reflexivity|]. split; [reflexivity|].
  split; [reflexivity|].
  intros es3 w3 Hrun3.
  assert (Hb : run_completed (now w) (now w2)
                 (runAnalysis_regions result regionData
                    (set_pending (remove_pending (next_id w1) (pending w2)) w2))).
  { set (wb := runAnalysis_regions result regionData
                  (set_pending (remove_pending (next_id w1) (pending w2)) w2)).
    assert (Hb_q : timers wb = timers w2) by reflexivity.
    assert (Hb_now : now wb = now w2) by reflexivity.
    assert (Hb_l : logs wb
                   = (logs w2
                        ++ [log_line (now w2) "Analysis complete. Insights generated."])%list)
      by reflexivity.
    unfold run_completed. rewrite Hb_q, Hb_now, Hb_l, due_by_after_same.
    split; [exact H2q|]. split; [lia|].
    cbn [lines map]. rewrite app_nil_r.
    now apply wel_app_own. }
  pose proof (beside_completed _ _ es3 _ _ Hb Hrun3) as (H3q & H3t & H3log).
  split; [exact H3log|].
  intros Hlate.
  destruct (run_timers_all_due (now w) (now w2) Hlate) as [Hby Hafter].
  rewrite Hby, Hafter in H3log.
  cbn [due_by filter lines map run_timers fst snd app] in H3log. exact H3log.
Qed.

End Dashboard.

(** * The hospital network page

    The [HospitalNetwork] component (first module of
    src/components/HospitalNetwork.tsx): a select over [STATES], a button,
    and [fetchHospitals]. Its state is the three [useState] cells; around
    them, the messages passed to [alert], the URLs passed to [fetch] (oldest
    first) and the number of calls of [fetchHospitals] suspended at their
    [await]. The continuation keeps no local variable, so a count stands
    for the table of continuations. *)

Module HospitalNetwork.

Definition STATES : list string :=
  ["Andhra Pradesh"; "Arunachal Pradesh"; "Assam"; "Bihar"; "Chhattisgarh"; "Goa"; "Gujarat";
   "Haryana"; "Himachal Pradesh"; "Jharkhand"; "Karnataka"; "Kerala"; "Madhya Pradesh";
   "Maharashtra"; "Manipur"; "Meghalaya"; "Mizoram"; "Nagaland"; "Odisha"; "Punjab";
   "Rajasthan"; "Sikkim"; "Tamil Nadu"; "Telangana"; "Tripura"; "Uttar Pradesh";
   "Uttarakhand"; "West Bengal"; "Andaman and Nicobar Islands"; "Chandigarh";
   "Dadra and Nagar Haveli and Daman and Diu"; "Lakshadweep"; "Delhi"; "Puducherry";
   "Ladakh"; "Jammu and Kashmir"].

Record State : Type := mkState {
  selectedState : string;
  loading : bool;
  hospitals : JsValue;
  alerts : list string;
  requested : list string;
  in_flight : nat
}.

Definition setSelectedState (s : string) (w : State) : State :=
  mkState s (loading w) (hospitals w) (alerts w) (requested w) (in_flight w).

Definition setLoading (b : bool) (w : State) : State :=
  mkState (selectedState w) b (hospitals w) (alerts w) (requested w) (in_flight w).

Definition setHospitals (h : JsValue) (w : State) : State :=
  mkState (selectedState w) (loading w) h (alerts w) (requested w) (in_flight w).

(** [alert(msg)] *)
Definition alert (msg : string) (w : State) : State :=
  mkState (selectedState w) (loading w) (hospitals w) ((alerts w ++ [msg])%list)
    (requested w) (in_flight w).

(** [await fetch(url)]: the request is issued and the call suspended. *)
Definition await_fetch (url : string) (w : State) : State :=
  mkState (selectedState w) (loading w) (hospitals w) (alerts w)
    ((requested w ++ [url])%list) (S (in_flight w)).

Definition resumed (w : State) : State :=
  mkState (selectedState w) (loading w) (hospitals w) (alerts w) (requested w)
    (Nat.pred (in_flight w)).

(** The component before any interaction. *)
Definition initial : State :=
  {| selectedState := ""; loading := false; hospitals := JsArray []; alerts := [];
     requested := []; in_flight := 0 |}.

Section Page.

(** The host's [encodeURIComponent], on the well-formed strings a select can
    hold. *)
Variable encodeURIComponent : string -> string.

Definition hospitals_url (selected : string) : string :=
  "http://localhost:8000/api/hospitals/" ++ encodeURIComponent selected.

(** [fetchHospitals] up to its [await]:
<<
    if (!selectedState) return;
    setLoading(true);
    try { const response = await fetch(`.../api/hospitals/${encodeURIComponent(selectedState)}`);
>> *)
Definition fetchHospitals (w : State) : State :=
  if negb (ToBoolean (JsString (selectedState w))) then w
  else
    let w := setLoading true w in
    await_fetch (hospitals_url (selectedState w)) w.

(** [fetchHospitals] resumed with the answer:
<<
      if (!response.ok) throw new Error('Network response was not ok');
      const data = await response.json();
      setHospitals(data.hospitals);
    } catch (error) { alert("Failed to fetch data. Ensure backend is running."); }
    finally { setLoading(false); }
>>
    [hospitals] is read like the properties of the Dashboard: a TypeError on
    [null], [undefined] when the body has no such property. *)
Definition fetchHospitals_resume (o : FetchOutcome) (w : State) : State :=
  let w :=
    try_catch
      (ok <- response_ok o ;;
       if negb ok then Throw (Error "Network response was not ok")
       else
         data <- response_json o ;;
         found <- Get data "hospitals" ;;
         Return (setHospitals found w))
      (fun _ => alert "Failed to fetch data. Ensure backend is running." w) in
  setLoading false w.

(** What can happen to the page: an option of the select is chosen (the
    placeholder, whose value is the empty string, or one of [STATES]), the
    button is clicked (it is disabled when [loading || !selectedState]), or
    the request of a suspended call is answered. *)
Inductive Event : Type :=
| Select (option_value : string)
| Click_Fetch
| Settle (o : FetchOutcome).

Definition is_option (s : string) : bool :=
  String.eqb s "" || existsb (String.eqb s) STATES.

Definition button_disabled (w : State) : bool :=
  loading w || negb (ToBoolean (JsString (selectedState w))).

Definition step (w : State) (ev : Event) : option State :=
  match ev with
  | Select s => if is_option s then Some (setSelectedState s w) else None
  | Click_Fetch => if button_disabled w then Some w else Some (fetchHospitals w)
  | Settle o =>
      match in_flight w with
      | O => None
      | S _ => Some (fetchHospitals_resume o (resumed w))
      end
  end.

Fixpoint run (w : State) (es : list Event) : option State :=
  match es with
  | [] => Some w
  | e :: rest =>
      match step w e with
      | Some w' => run w' rest
      | None => None
      end
  end.

(** X13. However a request of [fetchHospitals] ends, [loading] is false
    afterwards. Either the answer is a success whose body is not [null], and
    then [hospitals] becomes the body's [hospitals] property, whatever it is
    ([undefined] when the body has none), with no alert; or [hospitals] is
    kept and exactly one alert is raised. *)
Theorem settlement_ends_loading (w w' : State) (o : FetchOutcome) :
  step w (Settle o) = Some w' ->
  loading w' = false
  /\ in_flight w' = Nat.pred (in_flight w)
  /\ selectedState w' = selectedState w
  /\ requested w' = requested w
  /\ ((hospitals w' = hospitals w
       /\ alerts w' = (alerts w ++ ["Failed to fetch data. Ensure backend is running."])%list)
      \/ (alerts w' = alerts w
          /\ exists data, o = FetchResponse true (Some data)
                          /\ Get data "hospitals" = Return (hospitals w'))).
Proof.
  cbn [step]. destruct (in_flight w) as [|n] eqn:Hn; [discriminate|].
  intros [= <-]. unfold fetchHospitals_resume.
  destruct o as [|[|] [data|]]; cbn; rewrite ?Hn; cbn;
    try (repeat split; left; split; reflexivity).
  destruct (Get data "hospitals") as [found|e] eqn:Hget; cbn; rewrite ?Hn; cbn.
  - repeat split. right. split; [reflexivity|]. exists data. split; [reflexivity|exact Hget].
  - repeat split. left. split; reflexivity.
Qed.

(** What the page keeps true. *)
Definition page_invariant (w : State) : Prop :=
  (in_flight w <= 1)%nat
  /\ loading w = Nat.eqb (in_flight w) 1
  /\ is_option (selectedState w) = true
  /\ (forall url, In url (requested w) ->
        exists s, In s STATES /\ url = hospitals_url s)
  /\ (length (alerts w) + in_flight w <= length (requested w))%nat.

Lemma is_option_In (s : string) :
  is_option s = true -> s <> "" -> In s STATES.
Proof.
  unfold is_option. intros H Hs.
  apply orb_true_iff in H as [H|H].
  - apply String.eqb_eq in H. contradiction.
  - apply existsb_exists in H as (x & Hx & Heq).
    apply String.eqb_eq in Heq. now subst.
Qed.

Lemma page_invariant_step (w w' : State) (ev : Event) :
  page_invariant w -> step w ev = Some w' -> page_invariant w'.
Proof.
  intros (Hle & Hload & Hsel & Hreq & Hacc) Hstep.
  destruct ev as [s| |o]; cbn [step] in Hstep.
  - destruct (is_option s) eqn:Hs; [|discriminate]. injection Hstep as <-.
    repeat split; assumption.
  - unfold button_disabled in Hstep.
    destruct (loading w) eqn:Hl; cbn [orb] in Hstep;
      [injection Hstep as <-; repeat split; try assumption; congruence|].
    unfold fetchHospitals in Hstep.
    destruct (negb (ToBoolean (JsString (selectedState w)))) eqn:Hempty;
      injection Hstep as <-; [repeat split; try assumption; congruence|].
    symmetry in Hload. apply Nat.eqb_neq in Hload.
    assert (H0 : in_flight w = 0%nat) by lia.
    assert (Hne : selectedState w <> "").
    { intros Heq. rewrite Heq in Hempty. discriminate. }
    unfold page_invariant. cbn. rewrite H0. cbn.
    repeat split; try lia; try assumption.
    + intros url Hin. apply in_app_or in Hin as [Hin|[<-|[]]]; [now apply Hreq|].
      exists (selectedState w). split; [now apply is_option_In|reflexivity].
    + rewrite length_app. cbn. lia.
  - destruct (in_flight w) as [|n] eqn:Hn; [discriminate|]. injection Hstep as <-.
    assert (n = 0)%nat by lia. subst n.
    unfold fetchHospitals_resume, page_invariant.
    destruct o as [|[|] [data|]]; cbn; rewrite ?Hn; cbn;
      try (repeat split; try assumption; try lia; rewrite length_app; cbn; lia).
    destruct (Get data "hospitals"); cbn; rewrite ?Hn; cbn;
      repeat split; try assumption; try lia; rewrite length_app; cbn; lia.
Qed.

(** X14. Through the page's own controls at most one request is in flight,
    and [loading] is true exactly while one is: the button is disabled for
    that time. Every request ever made is for one of the listed states, never
    for the placeholder; and every alert answers a request of its own. *)
Theorem page_keeps_one_request (es : list Event) (w : State) :
  run initial es = Some w ->
  (in_flight w <= 1)%nat
  /\ (loading w = true <-> in_flight w = 1%nat)
  /\ (forall url, In url (requested w) ->
        exists s, In s STATES /\ url = hospitals_url s)
  /\ (length (alerts w) + in_flight w <= length (requested w))%nat.
Proof.
  assert (Hgen : forall (es : list Event) (w0 w : State),
             page_invariant w0 -> run w0 es = Some w -> page_invariant w).
  { clear. induction es as [|ev rest IH]; intros w0 w Hinv Hrun; cbn [run] in Hrun.
    - now injection Hrun as <-.
    - destruct (step w0 ev) as [w1|] eqn:Hstep; [|discriminate].
      eapply IH; [|exact Hrun]. eapply page_invariant_step; eassumption. }
  intros Hrun.
  assert (Hinit : page_invariant initial).
  { unfold page_invariant. cbn. repeat split; try lia; try (intros url []). }
  destruct (Hgen es initial w Hinit Hrun) as (Hle & Hload & _ & Hreq & Hacc).
  repeat split; try assumption.
  - intros Hl. rewrite Hload in Hl. now apply Nat.eqb_eq.
  - intros H1. rewrite Hload, H1. reflexivity.
Qed.

End Page.

End HospitalNetwork.

(** ** The risk badge *)

(** [RiskBadge] is defined on each of the three levels, and tells them apart
    by its text and by its colours; it computes nothing else about a level. *)
Lemma RiskBadge_levels :
  RiskBadge LOW
  = ("px-2.5 py-0.5 rounded-full text-xs font-bold border bg-green-100 text-green-800 border-green-200",
     "LOW RISK")
  /\ RiskBadge MEDIUM
     = ("px-2.5 py-0.5 rounded-full text-xs font-bold border bg-yellow-100 text-yellow-800 border-yellow-200",
        "MEDIUM RISK")
  /\ RiskBadge HIGH
     = ("px-2.5 py-0.5 rounded-full text-xs font-bold border bg-red-100 text-red-800 border-red-200 animate-pulse",
        "HIGH RISK").
Proof. repeat split. Qed.

(** ** Concrete runs

    The runs below use the sample host functions, the coordinates of
    Bengaluru for the position, and two distinguishable forecasts. *)

Definition first_forecast : AIAnalysisResult :=
  {| predictedDemand := 470; riskLevel := HIGH;
     recommendation := "Dispatch stock to the northern depots";
     reasoning := "forecast of the first run";
     affectedRegion := "North"; targetedMedicine := "Paracetamol" |}.

Definition second_forecast : AIAnalysisResult :=
  {| predictedDemand := 310; riskLevel := LOW;
     recommendation := "No action needed";
     reasoning := "forecast of the second run";
     affectedRegion := "South"; targetedMedicine := "Ibuprofen" |}.

Definition north_regions : list RegionStats :=
  [{| region_id := "r1"; region_name := "North"; risk := HIGH; activeCases := 120 |}].


Definition bengaluru_lat : JsValue := JsNumber 12.9716.
Definition bengaluru_lon : JsValue := JsNumber 77.5946.


Definition equator_props : list (string * JsValue) :=
  [("latitude", JsNumber 0); ("longitude", bengaluru_lon)].


(** An answer of the reverse geocoder for Bengaluru, and answers of the
    insights backend for it: the location alone, and all the fields the
    component renders. *)
Definition geocode_bengaluru : FetchOutcome :=
  FetchResponse true
    (Some (JsObject [("city", JsString "Bengaluru");
                     ("principalSubdivision", JsString "Karnataka")])).

Definition insights_bengaluru : JsValue :=
  JsObject [("location", JsObject [("city", JsString "Bengaluru");
                                   ("state", JsString "Karnataka")])].

Definition insights_bengaluru_full : JsValue :=
  JsObject
    [("location", JsObject [("city", JsString "Bengaluru");
                            ("state", JsString "Karnataka")]);
     ("environment", JsObject [("temperature", JsString "27 C");
                               ("condition", JsString "Cloudy");
                               ("humidity", JsString "64%");
                               ("wind_speed", JsString "11 km/h")]);
     ("health_intelligence",
      JsObject [("prevalent_diseases", JsArray [JsString "Dengue"]);
                ("health_alert", JsString "Mosquito activity is high");
                ("high_demand_medicines", JsArray [JsString "Paracetamol"])])].

Abbreviation sample_run := (run sample_Number_toString sample_toLocaleTimeString).
Abbreviation sample_settle := (settle sample_Number_toString sample_toLocaleTimeString).
Abbreviation sample_step := (step sample_Number_toString sample_toLocaleTimeString).
Abbreviation sample_run_beside :=
  (run_beside sample_Number_toString sample_toLocaleTimeString).
Abbreviation sample_reaches_address :=
  (reaches_address sample_Number_toString sample_toLocaleTimeString).

(** The component after [locateUser] and a device position in Bengaluru, when
    [fetchLocalInsights] has asked for the address of that position. *)
Definition awaiting_address : World :=
  Eval vm_compute in
    match sample_run (initial true)
            [Call_locateUser; Settle 0%nat (GeoSuccess 12.9716 77.5946)] with
    | Some w => w
    | None => initial true
    end.

(** The component showing insights of an earlier attempt while a new
    insights request is awaited. *)
Definition awaiting_insights : World :=
  await (AwaitInsights "Bengaluru")
    (setLocalInsights (JsObject [("location", JsObject [("city", JsString "Mysuru")])])
       (initial true)).

(** The component showing the second forecast while the regional-risk call
    of the first run is still awaited. *)
Definition stale_run_pending : World :=
  await (AwaitRegionalRisk first_forecast)
    (setAnalysis (Some second_forecast) (initial true)).

(** C1, counterexample: with a backend that answers within 200 ms the
    terminal line is the second line of the log, before the three timer
    lines. *)
Lemma fast_backend_log_order :
  exists w',
    sample_run (initial true)
      [Call_runAnalysis; Elapse 100; Settle 0%nat (AnalysisResolved first_forecast);
       Elapse 200; Settle 1%nat (RegionsResolved north_regions); Elapse 1300] = Some w'
    /\ logs w' = ["> 0 - Initializing AI Agent...";
                  "> 200 - Analysis complete. Insights generated.";
                  "> 500 - Fetching real-time inventory data...";
                  "> 900 - Aggregating community symptom reports...";
                  "> 1300 - Running LLaMA-3 reasoning model..."]
    /\ logs w' <> ["> 0 - Initializing AI Agent...";
                   "> 500 - Fetching real-time inventory data...";
                   "> 900 - Aggregating community symptom reports...";
                   "> 1300 - Running LLaMA-3 reasoning model...";
                   "> 200 - Analysis complete. Insights generated."].
Proof.
  eexists. split; [vm_compute; reflexivity|].
  split; [reflexivity|]. cbn [logs]. discriminate.
Qed.

(** C1, witness: the mount. The location pipeline resolves Bengaluru beside
    the run and writes its line between the timer lines; the backend answers
    the run after 2000 and 2500 ms. *)
Lemma analysis_run_log_witness :
  timers (initial true) = []
  /\ exists w1 wa w2 wb,
      sample_run_beside (runAnalysis sample_toLocaleTimeString (initial true))
        [Call_locateUser; Elapse 600; Settle 1%nat (GeoSuccess 12.9716 77.5946);
         Settle 2%nat (Fetched geocode_bengaluru);
         Settle 3%nat (Fetched (FetchResponse true (Some insights_bengaluru_full)));
         Elapse 2000] = Some w1
      /\ sample_settle 0%nat (AnalysisResolved first_forecast) w1 = Some wa
      /\ sample_run_beside wa [Elapse 2500] = Some w2
      /\ sample_settle 4%nat (RegionsResolved north_regions) w2 = Some wb
      /\ logs wb = ["> 0 - Initializing AI Agent...";
                    "> 500 - Fetching real-time inventory data...";
                    "> 600 - Environment analysis for Bengaluru complete.";
                    "> 900 - Aggregating community symptom reports...";
                    "> 1300 - Running LLaMA-3 reasoning model...";
                    "> 2500 - Analysis complete. Insights generated."]
      /\ with_environment_lines sample_toLocaleTimeString (logs wb)
           ["> 0 - Initializing AI Agent...";
            "> 500 - Fetching real-time inventory data...";
            "> 900 - Aggregating community symptom reports...";
            "> 1300 - Running LLaMA-3 reasoning model...";
            "> 2500 - Analysis complete. Insights generated."].
Proof.
  split; [reflexivity|].
  assert (Hrun1 : exists w1,
             sample_run_beside (runAnalysis sample_toLocaleTimeString (initial true))
               [Call_locateUser; Elapse 600; Settle 1%nat (GeoSuccess 12.9716 77.5946);
                Settle 2%nat (Fetched geocode_bengaluru);
                Settle 3%nat (Fetched (FetchResponse true (Some insights_bengaluru_full)));
                Elapse 2000] = Some w1
             /\ next_id w1 = 4%nat)
    by (eexists; split; vm_compute; reflexivity).
  destruct Hrun1 as (w1 & Hrun1 & Hid1).
  destruct (analysis_run_log sample_Number_toString sample_toLocaleTimeString
              (initial true) first_forecast north_regions _ w1 eq_refl Hrun1)
    as (_ & _ & wa & Hset1 & _ & Hafter).
  assert (Hrun2 : exists w2, sample_run_beside wa [Elapse 2500] = Some w2 /\ now w2 = 2500).
  { revert Hset1. clear Hafter.
    generalize Hrun1. vm_compute. intros Hw1. injection Hw1 as <-.
    intros Hwa. injection Hwa as <-. eexists. split; reflexivity. }
  destruct Hrun2 as (w2 & Hrun2 & Hnow2).
  destruct (Hafter [Elapse 2500] w2 Hrun2)
    as (_ & wb & Hset2 & Hlogs & _ & _ & _ & Hend).
  destruct (Hend [] wb eq_refl) as (_ & Hfive).
  rewrite Hid1 in Hset2.
  exists w1, wa, w2, wb.
  split; [exact Hrun1|]. split; [exact Hset1|]. split; [exact Hrun2|].
  split; [exact Hset2|].
  assert (Hvalue : logs w2 = ["> 0 - Initializing AI Agent...";
                              "> 500 - Fetching real-time inventory data...";
                              "> 600 - Environment analysis for Bengaluru complete.";
                              "> 900 - Aggregating community symptom reports...";
                              "> 1300 - Running LLaMA-3 reasoning model..."]).
  { revert Hrun2 Hset1. generalize Hrun1. clear. vm_compute.
    intros Hw1. injection Hw1 as <-. intros Hw2 Hwa. injection Hwa as <-.
    injection Hw2 as <-. reflexivity. }
  split.
  - rewrite Hlogs, Hvalue, Hnow2. reflexivity.
  - rewrite Hnow2 in Hfive. apply Hfive. cbn. lia.
Defined.

(** C3, counterexample: the status shown when the city is "Unknown" is not
    the text "Could not determine locality". *)
Lemma unknown_city_status_text :
  exists w',
    sample_run (initial true)
      [Call_locateUser; Settle 0%nat (GeoSuccess 12.9716 77.5946);
       Settle 1%nat (Fetched FetchRejected)] = Some w'
    /\ city (getAddressFromCoords_resume FetchRejected) = JsString "Unknown"
    /\ locationStatus w' = "Could not determine city name."
    /\ locationStatus w' <> "Could not determine locality".
Proof.
  eexists. split; [vm_compute; reflexivity|].
  split; [reflexivity|]. split; [reflexivity|]. cbn [locationStatus]. discriminate.
Qed.

(** The device path of an attempt, on the sample component. *)
Lemma awaiting_address_reached :
  sample_reaches_address (initial true) awaiting_address bengaluru_lat bengaluru_lon.
Proof.
  apply address_of_device_position; reflexivity.
Defined.

(** C3, witness: the reverse-geocoding request of that attempt is rejected. *)
Lemma unknown_city_skips_insights_witness :
  sample_reaches_address (initial true) awaiting_address bengaluru_lat bengaluru_lon
  /\ city (getAddressFromCoords_resume FetchRejected) = JsString "Unknown"
  /\ exists w2,
      sample_settle (newest awaiting_address) (Fetched FetchRejected)
        awaiting_address = Some w2
      /\ fetched w2 = fetched awaiting_address
      /\ insights_calls w2 = insights_calls (initial true)
      /\ pending w2
         = remove_pending (newest awaiting_address)
             (pending awaiting_address)
      /\ next_id w2 = next_id awaiting_address
      /\ locationStatus w2 = "Could not determine city name."
      /\ locationError w2 = None
      /\ localInsights w2 = localInsights awaiting_address.
Proof.
  split; [exact awaiting_address_reached|]. split; [reflexivity|].
  apply (unknown_city_skips_insights sample_Number_toString sample_toLocaleTimeString
           (initial true) awaiting_address bengaluru_lat bengaluru_lon
           FetchRejected awaiting_address_reached).
  reflexivity.
Defined.

(** C4, counterexample: an answer with no name at all gives the city
    "Unknown Location", which is not "Unknown". *)
Lemma nameless_city_is_not_Unknown :
  city (getAddressFromCoords_resume (FetchResponse true (Some (JsObject []))))
  = JsString "Unknown Location"
  /\ city (getAddressFromCoords_resume (FetchResponse true (Some (JsObject []))))
     <> JsString "Unknown".
Proof. split; [reflexivity|]. cbn. discriminate. Qed.

(** C4, witness: a rejected request, and an answer whose only name is empty. *)
Lemma unresolved_locality_city_witness :
  city (getAddressFromCoords_resume FetchRejected) = JsString "Unknown"
  /\ city (getAddressFromCoords_resume
             (FetchResponse true (Some (JsObject [("city", JsString "")]))))
     = JsString "Unknown Location".
Proof.
  split.
  - apply (proj1 unresolved_locality_city FetchRejected NetworkError). reflexivity.
  - apply (proj2 unresolved_locality_city true [("city", JsString "")]); reflexivity.
Defined.



(** C6, counterexample: the error stored when the IP lookup fails is not the
    text "Automatic location failed. Please retry.". *)
Lemma network_failure_message :
  exists w',
    sample_run (initial false) [Call_locateUser; Settle 0%nat (Fetched FetchRejected)]
    = Some w'
    /\ locationError w'
       = Some "Automatic location failed. Please click 'Retry Location'."
    /\ locationError w' <> Some "Automatic location failed. Please retry.".
Proof.
  eexists. split; [vm_compute; reflexivity|].
  split; [reflexivity|]. cbn [locationError]. discriminate.
Qed.

(** C6, witness: no geolocation support and a rejected IP lookup, followed by
    an analysis run. *)
Lemma network_failure_is_terminal_witness :
  location_idle (initial false) = true
  /\ network_position FetchRejected = None
  /\ forallb (fun ev => negb (starts_resolution ev))
       [Elapse 10; Call_runAnalysis; Elapse 5000] = true
  /\ exists w0 w1,
      sample_run (initial false) (device_failure (initial false) TIMEOUT) = Some w0
      /\ sample_settle (newest w0) (Fetched FetchRejected) w0 = Some w1
      /\ locationError w1
         = Some "Automatic location failed. Please click 'Retry Location'."
      /\ locationStatus w1 = "Location Unknown"
      /\ fetched w1 = ["https://ipapi.co/json/"]
      /\ (forall w2 : World,
             sample_run w1 [Elapse 10; Call_runAnalysis; Elapse 5000] = Some w2 ->
             locationError w2 = locationError w1 /\ locationStatus w2 = locationStatus w1)
      /\ sample_step w1 Click_RetryLocation
         = Some (locateUser w1)
      /\ locationError (locateUser w1) = None.
Proof.
  split; [reflexivity|]. split; [reflexivity|]. split; [reflexivity|].
  apply (network_failure_is_terminal sample_Number_toString sample_toLocaleTimeString
           (initial false) TIMEOUT FetchRejected
           [Elapse 10; Call_runAnalysis; Elapse 5000]); reflexivity.
Defined.

(** C7, witness: the backend answers with a non-success status while the
    insights of Mysuru are shown. *)
Lemma insights_failure_keeps_previous_witness :
  lookup_pending 0 (pending awaiting_insights) = Some (AwaitInsights "Bengaluru")
  /\ exists w',
      sample_settle 0%nat (Fetched (FetchResponse false None)) awaiting_insights = Some w'
      /\ locationError w' = Some "Failed to fetch local insights."
      /\ locationStatus w' = "Data Unavailable"
      /\ localInsights w'
         = JsObject [("location", JsObject [("city", JsString "Mysuru")])]
      /\ fetched w' = fetched awaiting_insights.
Proof.
  split; [reflexivity|].
  apply (insights_failure_keeps_previous sample_Number_toString sample_toLocaleTimeString
           awaiting_insights 0%nat "Bengaluru" (FetchResponse false None)).
  - reflexivity.
  - right. left. exists None. reflexivity.
Defined.



(** C10, witness: the IP lookup answers latitude 0, longitude 77.5946. *)
Lemma falsy_coordinate_is_rejected_witness :
  lookup_pending 0 (pending (fetchIpLocation (initial false))) = Some AwaitIpLocation
  /\ ToBoolean (lookup_prop "latitude" equator_props) = false
  /\ exists w',
      sample_settle 0%nat (Fetched (FetchResponse true (Some (JsObject equator_props))))
        (fetchIpLocation (initial false)) = Some w'
      /\ locationError w'
         = Some "Automatic location failed. Please click 'Retry Location'."
      /\ locationStatus w' = "Location Unknown"
      /\ fetched w' = ["https://ipapi.co/json/"]
      /\ pending w' = [].
Proof.
  split; [reflexivity|]. split; [reflexivity|].
  apply (proj2 (proj2 (falsy_coordinate_is_rejected sample_Number_toString
                         sample_toLocaleTimeString))
           (fetchIpLocation (initial false)) 0%nat true equator_props).
  - reflexivity.
  - left. reflexivity.
Defined.

(** ** Concrete runs for the properties of the whole component *)

(** The component right after its mount effect: a run and an attempt are in
    flight. *)
Definition mounted : World :=
  Eval vm_compute in
    match sample_run (initial true) [Call_runAnalysis; Call_locateUser] with
    | Some w => w
    | None => initial true
    end.

(** Two attempts overlap: the first waits for the insights of Bengaluru, the
    second, started from the [Retry Location] button, has failed. *)
Definition overlapping_attempts : World :=
  Eval vm_compute in
    match sample_run (initial true)
            [Call_locateUser; Settle 0%nat (GeoSuccess 12.9716 77.5946);
             Settle 1%nat (Fetched geocode_bengaluru);
             Click_RetryLocation; Settle 3%nat (GeoFailure TIMEOUT);
             Settle 4%nat (Fetched FetchRejected)] with
    | Some w => w
    | None => initial true
    end.

(** X1, witness: the address of Bengaluru arrives and the request is made;
    a click on [Run AI Agent] in the same state makes none. *)
Lemma insights_only_for_resolved_city_witness :
  lookup_pending 1 (pending awaiting_address)
  = Some (AwaitReverseGeocode bengaluru_lat bengaluru_lon)
  /\ (exists w',
         sample_step awaiting_address (Settle 1%nat (Fetched geocode_bengaluru)) = Some w'
         /\ fetched w'
            = (fetched awaiting_address
                 ++ ["http://localhost:8000/api/insights?lat=12.9716&lon=77.5946&city=Bengaluru&state=Karnataka"])%list
         /\ insights_calls w' = S (insights_calls awaiting_address))
  /\ insights_calls (runAnalysis sample_toLocaleTimeString awaiting_address)
     = insights_calls awaiting_address.
Proof.
  split; [reflexivity|]. split.
  - apply (proj2 (insights_only_for_resolved_city sample_Number_toString
                    sample_toLocaleTimeString)
             awaiting_address 1%nat bengaluru_lat bengaluru_lon geocode_bengaluru);
      reflexivity.
  - destruct (proj1 (insights_only_for_resolved_city sample_Number_toString
                       sample_toLocaleTimeString)
                awaiting_address _ Call_runAnalysis eq_refl)
      as [[Hsame _] | (id & lat & lon & o & url & Hev & _)].
    + exact Hsame.
    + discriminate Hev.
Defined.

(** X2, witness: device position, address and insights of Bengaluru. *)
Lemma resolution_success_witness :
  sample_reaches_address (initial true) awaiting_address bengaluru_lat bengaluru_lon
  /\ ToBoolean (city (getAddressFromCoords_resume geocode_bengaluru))
     && strict_neq_string (city (getAddressFromCoords_resume geocode_bengaluru)) "Unknown"
     = true
  /\ insights_url sample_Number_toString bengaluru_lat bengaluru_lon
       (city (getAddressFromCoords_resume geocode_bengaluru))
       (state (getAddressFromCoords_resume geocode_bengaluru))
     = Return "http://localhost:8000/api/insights?lat=12.9716&lon=77.5946&city=Bengaluru&state=Karnataka"
  /\ exists w2 w3 text,
      ToString sample_Number_toString (city (getAddressFromCoords_resume geocode_bengaluru))
      = Return text
      /\ sample_settle (newest awaiting_address) (Fetched geocode_bengaluru) awaiting_address
         = Some w2
      /\ sample_settle (newest w2)
           (Fetched (FetchResponse true (Some insights_bengaluru_full))) w2
         = Some w3
      /\ localInsights w3 = insights_bengaluru_full
      /\ locationStatus w3 = "Live Data Active"
      /\ locationError w3 = None
      /\ fetched w3
         = (fetched awaiting_address
              ++ ["http://localhost:8000/api/insights?lat=12.9716&lon=77.5946&city=Bengaluru&state=Karnataka"])%list
      /\ insights_calls w3 = S (insights_calls (initial true))
      /\ logs w3
         = (logs awaiting_address
              ++ [log_line sample_toLocaleTimeString (now awaiting_address)
                    ("Environment analysis for " ++ text ++ " complete.")])%list.
Proof.
  split; [exact awaiting_address_reached|]. split; [reflexivity|]. split; [reflexivity|].
  apply (resolution_success sample_Number_toString sample_toLocaleTimeString
           (initial true) awaiting_address bengaluru_lat bengaluru_lon geocode_bengaluru
           insights_bengaluru_full
           "http://localhost:8000/api/insights?lat=12.9716&lon=77.5946&city=Bengaluru&state=Karnataka"
           awaiting_address_reached); reflexivity.
Defined.

(** X3, witness: the geocoder knows the country only. *)
Lemma nameless_locality_still_fetches_witness :
  lookup_pending 1 (pending awaiting_address)
  = Some (AwaitReverseGeocode bengaluru_lat bengaluru_lon)
  /\ exists w',
      sample_settle 1%nat
        (Fetched (FetchResponse true (Some (JsObject [("countryName", JsString "India")]))))
        awaiting_address = Some w'
      /\ fetched w'
         = (fetched awaiting_address
              ++ ["http://localhost:8000/api/insights?lat=12.9716&lon=77.5946&city=Unknown Location&state=India"])%list
      /\ lookup_pending (newest w') (pending w') = Some (AwaitInsights "Unknown Location")
      /\ insights_calls w' = S (insights_calls awaiting_address)
      /\ locationStatus w' = locationStatus awaiting_address.
Proof.
  split; [reflexivity|].
  apply (nameless_locality_still_fetches sample_Number_toString sample_toLocaleTimeString
           awaiting_address 1%nat bengaluru_lat bengaluru_lon true
           [("countryName", JsString "India")] "12.9716" "77.5946" "India"); reflexivity.
Defined.

(** X4, witness: the backend answers with an empty object. *)
Lemma stored_insights_may_not_render_witness :
  lookup_pending 0 (pending awaiting_insights) = Some (AwaitInsights "Bengaluru")
  /\ locationError awaiting_insights = None
  /\ ToBoolean (JsObject []) = true
  /\ Get (JsObject []) "location" = Return JsUndefined
  /\ exists w',
      sample_settle 0%nat (Fetched (FetchResponse true (Some (JsObject []))))
        awaiting_insights = Some w'
      /\ localInsights w' = JsObject []
      /\ locationStatus w' = "Live Data Active"
      /\ locationError w' = None
      /\ location_indicator sample_Number_toString w' = Throw TypeError.
Proof.
  repeat (split; [reflexivity|]).
  apply (stored_insights_may_not_render sample_Number_toString sample_toLocaleTimeString
           awaiting_insights 0%nat "Bengaluru" (JsObject []) JsUndefined);
    try reflexivity.
  left. reflexivity.
Defined.

(** X5, witness: the insights of the first of two overlapping attempts
    arrive after the second attempt has failed. *)
Lemma success_keeps_error_witness :
  lookup_pending 2 (pending overlapping_attempts) = Some (AwaitInsights "Bengaluru")
  /\ locationError overlapping_attempts
     = Some "Automatic location failed. Please click 'Retry Location'."
  /\ exists w',
      sample_settle 2%nat (Fetched (FetchResponse true (Some insights_bengaluru)))
        overlapping_attempts = Some w'
      /\ localInsights w' = insights_bengaluru
      /\ locationStatus w' = "Live Data Active"
      /\ locationError w'
         = Some "Automatic location failed. Please click 'Retry Location'."
      /\ location_indicator sample_Number_toString w'
         = Return "Automatic location failed. Please click 'Retry Location'."
      /\ retry_visible w' = true.
Proof.
  split; [reflexivity|]. split; [reflexivity|].
  apply (success_keeps_error sample_Number_toString sample_toLocaleTimeString
           overlapping_attempts 2%nat "Bengaluru" insights_bengaluru
           "Automatic location failed. Please click 'Retry Location'.");
    [reflexivity | reflexivity | discriminate].
Defined.

(** X6, witness: 600 ms pass after the mount. *)
Lemma analysis_side_keeps_location_witness :
  exists w',
    sample_step mounted (Elapse 600) = Some w'
    /\ analysis_event mounted (Elapse 600) = true
    /\ locationStatus w' = locationStatus mounted
    /\ locationError w' = locationError mounted
    /\ localInsights w' = localInsights mounted
    /\ fetched w' = fetched mounted.
Proof.
  eexists. split; [vm_compute; reflexivity|]. split; [reflexivity|].
  apply (analysis_side_keeps_location sample_Number_toString sample_toLocaleTimeString
           mounted _ (Elapse 600)); vm_compute; reflexivity.
Defined.

(** X7, witness: the device answers after the mount. *)
Lemma location_side_keeps_analysis_witness :
  exists w',
    sample_step mounted (Settle 1%nat (GeoSuccess 12.9716 77.5946)) = Some w'
    /\ location_event mounted (Settle 1%nat (GeoSuccess 12.9716 77.5946)) = true
    /\ analysis w' = analysis mounted
    /\ regions w' = regions mounted
    /\ isAnalyzing w' = isAnalyzing mounted
    /\ timers w' = timers mounted
    /\ now w' = now mounted
    /\ (logs w' = logs mounted
        \/ exists city : string,
            logs w'
            = (logs mounted
                 ++ [log_line sample_toLocaleTimeString (now mounted)
                       ("Environment analysis for " ++ city ++ " complete.")])%list).
Proof.
  eexists. split; [vm_compute; reflexivity|]. split; [reflexivity|].
  apply (location_side_keeps_analysis sample_Number_toString sample_toLocaleTimeString
           mounted _ (Settle 1%nat (GeoSuccess 12.9716 77.5946))); vm_compute; reflexivity.
Defined.

(** X8, witness: the forecast call of the mount's run is rejected; later the
    button is clicked and the device times out. *)
Lemma rejected_run_stays_busy_witness :
  lookup_pending 0 (pending mounted) = Some AwaitRunAnalysis
  /\ isAnalyzing mounted = true
  /\ exists w1,
      sample_settle 0%nat ServiceRejected mounted = Some w1
      /\ analysis w1 = analysis mounted
      /\ regions w1 = regions mounted
      /\ logs w1 = logs mounted
      /\ isAnalyzing w1 = true
      /\ forall w2 : World,
          sample_run w1 [Elapse 2000; Click_RunAgent; Settle 1%nat (GeoFailure TIMEOUT)]
          = Some w2 ->
          isAnalyzing w2 = true
          /\ analysis w2 = analysis mounted
          /\ regions w2 = regions mounted
          /\ sample_step w2 Click_RunAgent = Some w2.
Proof.
  split; [reflexivity|]. split; [reflexivity|].
  apply (rejected_run_stays_busy sample_Number_toString sample_toLocaleTimeString
           mounted 0%nat AwaitRunAnalysis
           [Elapse 2000; Click_RunAgent; Settle 1%nat (GeoFailure TIMEOUT)]); reflexivity.
Defined.

(** X9, witness: no geolocation support and a rejected IP lookup. *)
Lemma reachable_location_values_witness :
  exists w,
    sample_run (initial false) [Call_locateUser; Settle 0%nat (Fetched FetchRejected)] = Some w
    /\ In (locationStatus w) location_statuses
    /\ In (locationError w) location_errors.
Proof.
  eexists. split; [vm_compute; reflexivity|].
  apply (reachable_location_values sample_Number_toString sample_toLocaleTimeString
           false [Call_locateUser; Settle 0%nat (Fetched FetchRejected)]).
  vm_compute; reflexivity.
Defined.

(** X10, witness: the first timer of the mount's run fires within 600 ms. *)
Lemma timers_are_never_cancelled_witness :
  exists w',
    sample_step mounted (Elapse 600) = Some w'
    /\ In (500, "Fetching real-time inventory data...") (timers mounted)
    /\ (In (500, "Fetching real-time inventory data...") (timers w')
        \/ In (log_line sample_toLocaleTimeString 500 "Fetching real-time inventory data...")
             (logs w')).
Proof.
  eexists. split; [vm_compute; reflexivity|].
  assert (Hin : In (500, "Fetching real-time inventory data...") (timers mounted))
    by (left; reflexivity).
  split; [exact Hin|].
  apply (timers_are_never_cancelled sample_Number_toString sample_toLocaleTimeString
           mounted _ (Elapse 600) (500, "Fetching real-time inventory data..."));
    [vm_compute; reflexivity | exact Hin].
Defined.

(** X11, witness: the same 600 ms. *)
Lemma log_is_append_only_witness :
  exists w',
    sample_step mounted (Elapse 600) = Some w'
    /\ ((exists added, logs w' = (logs mounted ++ added)%list)
        \/ (logs w' = [log_line sample_toLocaleTimeString (now mounted)
                         "Initializing AI Agent..."]
            /\ (Elapse 600 = Call_runAnalysis
                \/ (Elapse 600 = Click_RunAgent /\ isAnalyzing mounted = false)))).
Proof.
  eexists. split; [vm_compute; reflexivity|].
  apply (log_is_append_only sample_Number_toString sample_toLocaleTimeString
           mounted _ (Elapse 600)); vm_compute; reflexivity.
Defined.

(** X12, witness: the regional-risk call of a run resolves. *)
Lemma results_are_published_together_witness :
  exists w',
    sample_step stale_run_pending (Settle 0%nat (RegionsResolved north_regions)) = Some w'
    /\ ((analysis w' = analysis stale_run_pending /\ regions w' = regions stale_run_pending)
        \/ exists id result regionData,
            Settle 0%nat (RegionsResolved north_regions)
            = Settle id (RegionsResolved regionData)
            /\ lookup_pending id (pending stale_run_pending)
               = Some (AwaitRegionalRisk result)
            /\ analysis w' = Some result
            /\ regions w' = regionData
            /\ isAnalyzing w' = false).
Proof.
  eexists. split; [vm_compute; reflexivity|].
  apply (results_are_published_together sample_Number_toString sample_toLocaleTimeString
           stale_run_pending _ (Settle 0%nat (RegionsResolved north_regions)));
    vm_compute; reflexivity.
Defined.

(** ** Concrete runs of the hospital network page *)

(** A stand-in for [encodeURIComponent] that is right on the listed states:
    letters are kept and a space becomes %20. *)
Fixpoint sample_encodeURIComponent (s : string) : string :=
  match s with
  | EmptyString => EmptyString
  | String c rest =>
      if Ascii.eqb c (Ascii.ascii_of_nat 32) then "%20" ++ sample_encodeURIComponent rest
      else String c (sample_encodeURIComponent rest)
  end.

Abbreviation page_step := (HospitalNetwork.step sample_encodeURIComponent).
Abbreviation page_run := (HospitalNetwork.run sample_encodeURIComponent).

(** The page while the hospitals of Tamil Nadu are requested. *)
Definition page_loading : HospitalNetwork.State :=
  Eval vm_compute in
    match page_run HospitalNetwork.initial
            [HospitalNetwork.Select "Tamil Nadu"; HospitalNetwork.Click_Fetch] with
    | Some w => w
    | None => HospitalNetwork.initial
    end.

(** X13, witness: the backend answers with an object that has no
    [hospitals]. *)
Lemma settlement_ends_loading_witness :
  exists w',
    page_step page_loading
      (HospitalNetwork.Settle (FetchResponse true (Some (JsObject [])))) = Some w'
    /\ HospitalNetwork.loading page_loading = true
    /\ HospitalNetwork.loading w' = false
    /\ HospitalNetwork.in_flight w' = Nat.pred (HospitalNetwork.in_flight page_loading)
    /\ HospitalNetwork.selectedState w' = HospitalNetwork.selectedState page_loading
    /\ HospitalNetwork.requested w' = HospitalNetwork.requested page_loading
    /\ ((HospitalNetwork.hospitals w' = HospitalNetwork.hospitals page_loading
         /\ HospitalNetwork.alerts w'
            = (HospitalNetwork.alerts page_loading
                 ++ ["Failed to fetch data. Ensure backend is running."])%list)
        \/ (HospitalNetwork.alerts w' = HospitalNetwork.alerts page_loading
            /\ exists data,
                FetchResponse true (Some (JsObject [])) = FetchResponse true (Some data)
                /\ Get data "hospitals" = Return (HospitalNetwork.hospitals w'))).
Proof.
  eexists. split; [vm_compute; reflexivity|]. split; [reflexivity|].
  apply (HospitalNetwork.settlement_ends_loading sample_encodeURIComponent page_loading _
           (FetchResponse true (Some (JsObject [])))).
  vm_compute; reflexivity.
Defined.

(** X14, witness: a second click while loading, then a rejected request. *)
Lemma page_keeps_one_request_witness :
  exists w,
    page_run HospitalNetwork.initial
      [HospitalNetwork.Select "Tamil Nadu"; HospitalNetwork.Click_Fetch;
       HospitalNetwork.Click_Fetch; HospitalNetwork.Settle FetchRejected] = Some w
    /\ HospitalNetwork.requested w = ["http://localhost:8000/api/hospitals/Tamil%20Nadu"]
    /\ (HospitalNetwork.in_flight w <= 1)%nat
    /\ (HospitalNetwork.loading w = true <-> HospitalNetwork.in_flight w = 1%nat)
    /\ (forall url, In url (HospitalNetwork.requested w) ->
          exists s, In s HospitalNetwork.STATES
                    /\ url = HospitalNetwork.hospitals_url sample_encodeURIComponent s)
    /\ (length (HospitalNetwork.alerts w) + HospitalNetwork.in_flight w
        <= length (HospitalNetwork.requested w))%nat.
Proof.
  eexists. split; [vm_compute; reflexivity|]. split; [reflexivity|].
  apply (HospitalNetwork.page_keeps_one_request sample_encodeURIComponent
           [HospitalNetwork.Select "Tamil Nadu"; HospitalNetwork.Click_Fetch;
            HospitalNetwork.Click_Fetch; HospitalNetwork.Settle FetchRejected]).
  vm_compute; reflexivity.
Defined.

(** X15, witness: without geolocation support [locateUser] makes the IP
    lookup; after the mount, a timeout of the device makes it, and a
    position given by the device does not. *)
Lemma ip_lookup_only_as_fallback_witness :
  geolocation (initial false) = false
  /\ lookup_pending 1 (pending mounted) = Some AwaitGeolocation
  /\ fetched (locateUser (initial false)) = ["https://ipapi.co/json/"]
  /\ (exists w',
         sample_step mounted (Settle 1%nat (GeoFailure TIMEOUT)) = Some w'
         /\ fetched w' = (fetched mounted ++ ["https://ipapi.co/json/"])%list
         /\ ip_lookups w' = (ip_lookups mounted ++ ["https://ipapi.co/json/"])%list
         /\ lookup_pending (newest w') (pending w') = Some AwaitIpLocation)
  /\ exists w',
      sample_step mounted (Settle 1%nat (GeoSuccess 12.9716 77.5946)) = Some w'
      /\ ip_lookups w' = ip_lookups mounted.
Proof.
  split; [reflexivity|]. split; [reflexivity|].
  destruct (ip_lookup_only_as_fallback sample_Number_toString sample_toLocaleTimeString)
    as (Hunsupported & Hfailure & Honly).
  split; [exact (proj1 (Hunsupported (initial false) eq_refl))|].
  split; [exact (Hfailure mounted 1%nat TIMEOUT eq_refl)|].
  assert (Hstep : exists w',
             sample_step mounted (Settle 1%nat (GeoSuccess 12.9716 77.5946)) = Some w')
    by (eexists; vm_compute; reflexivity).
  destruct Hstep as (w' & Hstep).
  exists w'. split; [exact Hstep|].
  destruct (Honly mounted w' _ Hstep) as [Hsame | [(Hgeo & _) | (id & e & Hev & _)]].
  - exact Hsame.
  - discriminate Hgeo.
  - discriminate Hev.
Defined.
